(** * PyDisdrometer: the DropSizeDistribution class

    A shallow embedding of [pydisdrometer/DropSizeDistribution.py] and the
    properties of its moment, parameterization, rain-rate and
    relationship-fit methods.

    Numbers.  The arrays of the program hold NumPy [float64] values.  They
    are modelled as extended reals: a finite value is a real number, and
    the IEEE special values [inf], [-inf] and [nan] are kept, because the
    program relies on NumPy arithmetic returning them instead of raising.
    Rounding, overflow and the sign of zero are not modelled.

    Errors.  A Python exception is a value of [pyexn]; a computation that
    may raise returns a [result].  A method that writes attributes of the
    object returns the object as it is when the method returns or raises. *)

From Stdlib Require Import Reals Lra Lia String ZArith Arith Bool List.
Import ListNotations.

Set Implicit Arguments.
Local Open Scope R_scope.

(** ** NumPy floating point values *)

Module NpFloat.

Inductive npfloat : Type :=
| Fin (r : R)
| Inf (neg : bool)
| NaN.

Definition Rltb (a b : R) : bool := if Rlt_dec a b then true else false.
Definition Reqb (a b : R) : bool := if Req_EM_T a b then true else false.

Definition fneg (x : npfloat) : npfloat :=
  match x with
  | Fin r => Fin (- r)
  | Inf s => Inf (negb s)
  | NaN => NaN
  end.

Definition fadd (x y : npfloat) : npfloat :=
  match x, y with
  | Fin a, Fin b => Fin (a + b)
  | Fin _, Inf s => Inf s
  | Inf s, Fin _ => Inf s
  | Inf s, Inf s' => if Bool.eqb s s' then Inf s else NaN
  | _, _ => NaN
  end.

Definition fsub (x y : npfloat) : npfloat := fadd x (fneg y).

Definition fmul (x y : npfloat) : npfloat :=
  match x, y with
  | Fin a, Fin b => Fin (a * b)
  | Fin a, Inf s => if Reqb a 0 then NaN else Inf (xorb (Rltb a 0) s)
  | Inf s, Fin b => if Reqb b 0 then NaN else Inf (xorb s (Rltb b 0))
  | Inf s, Inf s' => Inf (xorb s s')
  | _, _ => NaN
  end.

(** Division never raises: a zero divisor gives [nan] for a zero dividend
    and an infinity otherwise (NumPy only warns).  The zero of this model
    has no sign, so that infinity takes the sign of the dividend, as it
    does in NumPy for the divisor [+0.0]; for the divisor [-0.0] NumPy
    gives the opposite infinity.  No statement below depends on the sign
    of an infinity that comes from a zero divisor. *)
Definition fdiv (x y : npfloat) : npfloat :=
  match x, y with
  | Fin a, Fin b =>
      if Reqb b 0 then (if Reqb a 0 then NaN else Inf (Rltb a 0))
      else Fin (a / b)
  | Fin _, Inf _ => Fin 0
  | Inf s, Fin b => Inf (xorb s (Rltb b 0))
  | Inf _, Inf _ => NaN
  | _, _ => NaN
  end.

(** [x < y]; every comparison with [nan] is false. *)
Definition fltb (x y : npfloat) : bool :=
  match x, y with
  | Fin a, Fin b => Rltb a b
  | Fin _, Inf s => negb s
  | Inf s, Fin _ => s
  | Inf s, Inf s' => s && negb s'
  | _, _ => false
  end.

Definition fgtb (x y : npfloat) : bool := fltb y x.

(** [x >= y]; false when either side is [nan]. *)
Definition fgeb (x y : npfloat) : bool :=
  match x, y with
  | NaN, _ | _, NaN => false
  | _, _ => negb (fltb x y)
  end.

(** [x != 0], the test behind [ndarray.nonzero]. *)
Definition fnonzero (x : npfloat) : bool :=
  match x with
  | Fin r => negb (Reqb r 0)
  | _ => true
  end.

Definition is_finite (x : npfloat) : Prop :=
  match x with Fin _ => True | _ => False end.

(** [np.exp]. *)
Definition np_exp (x : npfloat) : npfloat :=
  match x with
  | Fin r => Fin (exp r)
  | Inf false => Inf false
  | Inf true => Fin 0
  | NaN => NaN
  end.

(** Whether a real is an integer, and whether that integer is odd. *)
Definition is_integer (m : R) : bool := Reqb (IZR (Int_part m)) m.
Definition is_odd_integer (m : R) : bool :=
  is_integer m && Z.odd (Int_part m).

(** [pow] for a finite exponent [m], after the C library function. *)
Definition pow_finite (x : npfloat) (m : R) : npfloat :=
  if Reqb m 0 then Fin 1
  else
    match x with
    | NaN => NaN
    | Fin r =>
        if Rltb 0 r then Fin (Rpower r m)
        else if Reqb r 0 then (if Rltb 0 m then Fin 0 else Inf false)
        else if is_integer m then
          Fin (if is_odd_integer m then - Rpower (- r) m else Rpower (- r) m)
        else NaN
    | Inf s =>
        if Rltb 0 m then Inf (s && is_odd_integer m) else Fin 0
    end.

(** How [|x|] compares with one ([None] for [nan]). *)
Definition abs_vs_one (x : npfloat) : option comparison :=
  match x with
  | Fin r =>
      Some (if Rltb (Rabs r) 1 then Lt
            else if Reqb (Rabs r) 1 then Eq else Gt)
  | Inf _ => Some Gt
  | NaN => None
  end.

(** [np.power x m]. *)
Definition np_power (x m : npfloat) : npfloat :=
  match m with
  | Fin r => pow_finite x r
  | Inf s =>
      match abs_vs_one x with
      | None => NaN
      | Some Eq => Fin 1
      | Some Lt => if s then Inf false else Fin 0
      | Some Gt => if s then Fin 0 else Inf false
      end
  | NaN =>
      match x with
      | Fin r => if Reqb r 1 then Fin 1 else NaN
      | _ => NaN
      end
  end.

End NpFloat.
Export NpFloat.

(** ** Python results and the NumPy operations the class calls *)

Module Py.

Inductive pyexn : Type :=
| ValueError | IndexError | TypeError | NameError | AttributeError
| ZeroDivisionError.

Inductive result (A : Type) : Type :=
| Ok (a : A)
| Raise (e : pyexn).
Arguments Ok {A} a.
Arguments Raise {A} e.

Definition rbind {A B} (r : result A) (k : A -> result B) : result B :=
  match r with
  | Ok a => k a
  | Raise e => Raise e
  end.

Definition raises {A} (r : result A) : Prop :=
  match r with Ok _ => False | Raise _ => True end.

(** An optional constructor argument left at [None] and then used as an
    array is a [TypeError]. *)
Definition not_none {A} (o : option A) : result A :=
  match o with Some a => Ok a | None => Raise TypeError end.

(** An attribute that was never assigned. *)
Definition getattr {A} (o : option A) : result A :=
  match o with Some a => Ok a | None => Raise AttributeError end.

(** [l[i]] with Python's negative indices. *)
Definition py_index {A} (l : list A) (i : Z) : result A :=
  let n := Z.of_nat (length l) in
  let j := if (i <? 0)%Z then (i + n)%Z else i in
  if ((0 <=? j) && (j <? n))%Z%bool then
    match nth_error l (Z.to_nat j) with
    | Some a => Ok a
    | None => Raise IndexError
    end
  else Raise IndexError.

(** [l[t] = v] for [t >= 0]. *)
Fixpoint np_setitem {A} (l : list A) (t : nat) (v : A) : result (list A) :=
  match l, t with
  | [], _ => Raise IndexError
  | _ :: l', O => Ok (v :: l')
  | x :: l', S t' => rbind (np_setitem l' t' v) (fun r => Ok (x :: r))
  end.

(** [list.index(False)]. *)
Fixpoint index_false (l : list bool) : result nat :=
  match l with
  | [] => Raise ValueError
  | false :: _ => Ok O
  | true :: l' => rbind (index_false l') (fun k => Ok (S k))
  end.

Definition np_zeros (n : nat) : list npfloat := repeat (Fin 0) n.
Definition np_ones (n : nat) : list npfloat := repeat (Fin 1) n.

Definition np_sum (l : list npfloat) : npfloat := fold_left fadd l (Fin 0).

Fixpoint cumsum_from (acc : npfloat) (l : list npfloat) : list npfloat :=
  match l with
  | [] => []
  | x :: l' => fadd acc x :: cumsum_from (fadd acc x) l'
  end.

Definition np_cumsum (l : list npfloat) : list npfloat :=
  match l with
  | [] => []
  | x :: l' => x :: cumsum_from x l'
  end.

Definition zip_with {A B C} (f : A -> B -> C) (a : list A) (b : list B)
  : list C :=
  map (fun p => f (fst p) (snd p)) (combine a b).

(** An elementwise binary ufunc on one-dimensional arrays, with
    broadcasting: equal lengths, or one side of length one. *)
Definition np_binop (f : npfloat -> npfloat -> npfloat)
    (a b : list npfloat) : result (list npfloat) :=
  if Nat.eqb (length a) (length b) then Ok (zip_with f a b)
  else match a, b with
       | [x], _ => Ok (map (f x) b)
       | _, [y] => Ok (map (fun x => f x y) a)
       | _, _ => Raise ValueError
       end.

Definition np_multiply := np_binop fmul.
Definition np_divide := np_binop fdiv.

(** A two-dimensional array is the list of its rows; nested sequences
    whose rows differ in length do not make an array. *)
Definition rectangular (M : list (list npfloat)) : bool :=
  match M with
  | [] => true
  | r :: M' => forallb (fun r' => Nat.eqb (length r') (length r)) M'
  end.

Fixpoint map_result {A B} (f : A -> result B) (l : list A)
  : result (list B) :=
  match l with
  | [] => Ok []
  | x :: l' =>
      rbind (f x) (fun y => rbind (map_result f l') (fun ys => Ok (y :: ys)))
  end.

(** [np.multiply] of a one-dimensional with a two-dimensional array and
    the other way round: the vector is broadcast along the rows. *)
Definition np_multiply_1d_2d (v : list npfloat) (M : list (list npfloat))
  : result (list (list npfloat)) :=
  if rectangular M then map_result (fun row => np_multiply v row) M
  else Raise ValueError.

Definition np_multiply_2d_1d (M : list (list npfloat)) (v : list npfloat)
  : result (list (list npfloat)) :=
  if rectangular M then map_result (fun row => np_multiply row v) M
  else Raise ValueError.

(** Storing an array into one element of a float array: only an array
    of exactly one element converts to a scalar; anything else is
    "setting an array element with a sequence". *)
Definition as_scalar (M : list (list npfloat)) : result npfloat :=
  match M with
  | [[x]] => Ok x
  | _ => Raise ValueError
  end.

(** [np.dot] of two one-dimensional arrays (no broadcasting). *)
Definition np_dot (a b : list npfloat) : result npfloat :=
  if Nat.eqb (length a) (length b) then Ok (np_sum (zip_with fmul a b))
  else Raise ValueError.

(** [a[mask]] with a boolean mask. *)
Definition np_mask {A} (a : list A) (mask : list bool) : result (list A) :=
  if Nat.eqb (length a) (length mask) then
    Ok (map fst (filter snd (combine a mask)))
  else Raise IndexError.

Definition np_logical_and (a b : list bool) : result (list bool) :=
  if Nat.eqb (length a) (length b) then Ok (zip_with andb a b)
  else match a, b with
       | [x], _ => Ok (map (andb x) b)
       | _, [y] => Ok (map (fun x => andb x y) a)
       | _, _ => Raise ValueError
       end.

(** [np.max(N.nonzero())]: the largest index of a nonzero entry; the
    maximum of an empty index array is a [ValueError]. *)
Fixpoint nonzero_from (k : nat) (l : list npfloat) : list nat :=
  match l with
  | [] => []
  | x :: l' =>
      if fnonzero x then k :: nonzero_from (S k) l' else nonzero_from (S k) l'
  end.

Definition np_nonzero (l : list npfloat) : list nat := nonzero_from 0 l.

Definition np_max_index (l : list nat) : result nat :=
  match l with
  | [] => Raise ValueError
  | k :: l' => Ok (fold_left Nat.max l' k)
  end.

Definition np_pi : npfloat := Fin PI.

End Py.
Export Py.

Declare Scope py_scope.
Delimit Scope py_scope with py.
Notation "x <- c ;; k" := (rbind c (fun x => k))
  (at level 61, c at next level, right associativity) : py_scope.

Local Open Scope py_scope.

(** ** The class *)

(** The attributes of a [DropSizeDistribution] object.  The constructor
    arguments that default to [None] are options; so are the DSD
    parameters, which are not attributes of the object until
    [calc_dsd_parameterization] assigns them.  ([Z_] is the attribute
    [Z].) *)
Record DropSizeDistribution : Type := mkDSD {
  time : list npfloat;
  Nd : list (list npfloat);
  spread : list npfloat;
  rain_rate : option (list npfloat);
  velocity : option (list npfloat);
  Z_ : option (list npfloat);
  num_particles : option (list npfloat);
  bin_edges : option (list npfloat);
  diameter : option (list npfloat);
  Zh : list npfloat;
  Zdr : list npfloat;
  Kdp : list npfloat;
  Ai : list npfloat;
  Nt : option (list npfloat);
  W : option (list npfloat);
  D0 : option (list npfloat);
  Nw : option (list npfloat);
  Dmax : option (list npfloat);
  Dm : option (list npfloat)
}.

Definition set_rain_rate v (s : DropSizeDistribution) :=
  mkDSD (time s) (Nd s) (spread s) v (velocity s) (Z_ s) (num_particles s)
    (bin_edges s) (diameter s) (Zh s) (Zdr s) (Kdp s) (Ai s)
    (Nt s) (W s) (D0 s) (Nw s) (Dmax s) (Dm s).
Definition set_Zh v (s : DropSizeDistribution) :=
  mkDSD (time s) (Nd s) (spread s) (rain_rate s) (velocity s) (Z_ s)
    (num_particles s) (bin_edges s) (diameter s) v (Zdr s) (Kdp s) (Ai s)
    (Nt s) (W s) (D0 s) (Nw s) (Dmax s) (Dm s).
Definition set_Zdr v (s : DropSizeDistribution) :=
  mkDSD (time s) (Nd s) (spread s) (rain_rate s) (velocity s) (Z_ s)
    (num_particles s) (bin_edges s) (diameter s) (Zh s) v (Kdp s) (Ai s)
    (Nt s) (W s) (D0 s) (Nw s) (Dmax s) (Dm s).
Definition set_Kdp v (s : DropSizeDistribution) :=
  mkDSD (time s) (Nd s) (spread s) (rain_rate s) (velocity s) (Z_ s)
    (num_particles s) (bin_edges s) (diameter s) (Zh s) (Zdr s) v (Ai s)
    (Nt s) (W s) (D0 s) (Nw s) (Dmax s) (Dm s).
Definition set_Ai v (s : DropSizeDistribution) :=
  mkDSD (time s) (Nd s) (spread s) (rain_rate s) (velocity s) (Z_ s)
    (num_particles s) (bin_edges s) (diameter s) (Zh s) (Zdr s) (Kdp s) v
    (Nt s) (W s) (D0 s) (Nw s) (Dmax s) (Dm s).
Definition set_Nt v (s : DropSizeDistribution) :=
  mkDSD (time s) (Nd s) (spread s) (rain_rate s) (velocity s) (Z_ s)
    (num_particles s) (bin_edges s) (diameter s) (Zh s) (Zdr s) (Kdp s)
    (Ai s) v (W s) (D0 s) (Nw s) (Dmax s) (Dm s).
Definition set_W v (s : DropSizeDistribution) :=
  mkDSD (time s) (Nd s) (spread s) (rain_rate s) (velocity s) (Z_ s)
    (num_particles s) (bin_edges s) (diameter s) (Zh s) (Zdr s) (Kdp s)
    (Ai s) (Nt s) v (D0 s) (Nw s) (Dmax s) (Dm s).
Definition set_D0 v (s : DropSizeDistribution) :=
  mkDSD (time s) (Nd s) (spread s) (rain_rate s) (velocity s) (Z_ s)
    (num_particles s) (bin_edges s) (diameter s) (Zh s) (Zdr s) (Kdp s)
    (Ai s) (Nt s) (W s) v (Nw s) (Dmax s) (Dm s).
Definition set_Nw v (s : DropSizeDistribution) :=
  mkDSD (time s) (Nd s) (spread s) (rain_rate s) (velocity s) (Z_ s)
    (num_particles s) (bin_edges s) (diameter s) (Zh s) (Zdr s) (Kdp s)
    (Ai s) (Nt s) (W s) (D0 s) v (Dmax s) (Dm s).
Definition set_Dmax v (s : DropSizeDistribution) :=
  mkDSD (time s) (Nd s) (spread s) (rain_rate s) (velocity s) (Z_ s)
    (num_particles s) (bin_edges s) (diameter s) (Zh s) (Zdr s) (Kdp s)
    (Ai s) (Nt s) (W s) (D0 s) (Nw s) v (Dm s).
Definition set_Dm v (s : DropSizeDistribution) :=
  mkDSD (time s) (Nd s) (spread s) (rain_rate s) (velocity s) (Z_ s)
    (num_particles s) (bin_edges s) (diameter s) (Zh s) (Zdr s) (Kdp s)
    (Ai s) (Nt s) (W s) (D0 s) (Nw s) (Dmax s) v.

(** The derived attributes: the radar arrays and the DSD parameters. *)
Definition derived_fields (s : DropSizeDistribution) :=
  (Zh s, Zdr s, Kdp s, Ai s, (Nt s, W s, D0 s, Nw s, Dmax s, Dm s)).

(** An attribute that holds an array of length [n]. *)
Definition is_array (n : nat) (o : option (list npfloat)) : Prop :=
  exists a, o = Some a /\ length a = n.

(** A value that is zero or [nan]: what arithmetic on an empty
    distribution produces. *)
Definition zero_or_nan (x : npfloat) : Prop :=
  match x with
  | Fin r => r = 0
  | Inf _ => False
  | NaN => True
  end.

(** A method that writes attributes: the object after the call, and the
    value returned or the exception raised. *)
Definition M (A : Type) : Type :=
  DropSizeDistribution -> DropSizeDistribution * result A.

Definition mret {A} (a : A) : M A := fun s => (s, Ok a).
Definition mbind {A B} (c : M A) (k : A -> M B) : M B :=
  fun s =>
    match c s with
    | (s', Ok a) => k a s'
    | (s', Raise e) => (s', Raise e)
    end.
Definition lift {A} (r : result A) : M A := fun s => (s, r).
Definition get : M DropSizeDistribution := fun s => (s, Ok s).
Definition modify (f : DropSizeDistribution -> DropSizeDistribution)
  : M unit := fun s => (f s, Ok tt).

Notation "x <-- c ;; k" := (mbind c (fun x => k))
  (at level 61, c at next level, right associativity) : py_scope.

(** [for t in ts: body]. *)
Fixpoint for_each (ts : list nat) (body : nat -> M unit) : M unit :=
  match ts with
  | [] => mret tt
  | t :: ts' => _ <-- body t ;; for_each ts' body
  end.

(** [for t in range(0, n): body]. *)
Definition for_range (n : nat) (body : nat -> M unit) : M unit :=
  for_each (seq 0 n) body.

(** [__init__]: stores its arguments and creates the four radar arrays,
    and nothing else. *)
Definition __init__ (time0 : list npfloat) (Nd0 : list (list npfloat))
    (spread0 : list npfloat)
    (rain_rate0 velocity0 Z0 num_particles0 bin_edges0 diameter0
       : option (list npfloat)) : DropSizeDistribution :=
  let lt := length time0 in
  mkDSD time0 Nd0 spread0 rain_rate0 velocity0 Z0 num_particles0 bin_edges0
    diameter0 (np_zeros lt) (np_zeros lt) (np_zeros lt) (np_zeros lt)
    None None None None None None.

(** The names bound at module level by the imports and the class
    statement.  NumPy is imported as [np] only. *)
Definition module_globals : list string :=
  ["np"; "pytmatrix"; "Scatterer"; "PSDIntegrator"; "orientation"; "radar";
   "tmatrix_aux"; "refractive"; "DSR"; "expfit"; "expfit2"; "curve_fit";
   "DropSizeDistribution"]%string.

(** Looking up a name that is neither a builtin nor a module global. *)
Definition global_name (x : string) : result unit :=
  if existsb (String.eqb x) module_globals then Ok tt else Raise NameError.

(** The list comprehension of [_calc_mth_moment]:
    [bin_edges[i + 1] - bin_edges[i]] for [i] in
    [range(0, len(bin_edges) - 1)]. *)
Fixpoint bin_widths (edges : list npfloat) : list npfloat :=
  match edges with
  | a :: (b :: _) as rest => fsub b a :: bin_widths rest
  | _ => []
  end.

(** The loop of [_calc_mth_moment] over a local array. *)
Fixpoint fill_each (ts : list nat) (acc : list npfloat)
    (value : nat -> result npfloat) : result (list npfloat) :=
  match ts with
  | [] => Ok acc
  | t :: ts' =>
      v <- value t ;;
      acc' <- np_setitem acc t v ;;
      fill_each ts' acc' value
  end.

(** [_calc_mth_moment]: the right-hand side of the assignment multiplies
    with the whole of [self.Nd], and is not summed. *)
Definition _calc_mth_moment (self : DropSizeDistribution) (m : npfloat)
  : result (list npfloat) :=
  edges <- not_none (bin_edges self) ;;
  let bin_width := bin_widths edges in
  let mth_moment := np_zeros (length (time self)) in
  fill_each (seq 0 (length (time self))) mth_moment (fun t =>
    d <- not_none (diameter self) ;;
    let dmth := map (fun x => np_power x m) d in
    a <- np_multiply_1d_2d dmth (Nd self) ;;
    b <- np_multiply_2d_1d a bin_width ;;
    as_scalar b).

(** [__get_last_nonzero]. *)
Definition __get_last_nonzero (N : list npfloat) : result nat :=
  np_max_index (np_nonzero N).

Definition rho_w : npfloat := Fin 1.

(** [vol_constant] of [calc_dsd_parameterization] and [W_const] of
    [_calculate_D0]. *)
Definition vol_constant : npfloat :=
  fmul (fdiv (fmul (Fin 10e-03) np_pi) (Fin 6.0)) rho_w.
Definition W_const : npfloat := fdiv (fmul (Fin 1e-3) np_pi) (Fin 6.0).

(** The array [cum_W] that [_calculate_D0] builds from [N]. *)
Definition cum_W (self : DropSizeDistribution) (N : list npfloat)
  : result (list npfloat) :=
  terms <- map_result (fun k =>
             n <- py_index N (Z.of_nat k) ;;
             s <- py_index (spread self) (Z.of_nat k) ;;
             ds <- not_none (diameter self) ;;
             d <- py_index ds (Z.of_nat k) ;;
             Ok (fmul (fmul n s) (np_power d (Fin 3))))
           (seq 0 (length N)) ;;
  Ok (map (fmul W_const) (np_cumsum terms)).

(** [_calculate_D0]. *)
Definition _calculate_D0 (self : DropSizeDistribution) (N : list npfloat)
  : result npfloat :=
  cum_W <- cum_W self N ;;
  last <- py_index cum_W (-1) ;;
  k <- index_false (map (fun x => fltb x (fmul last (Fin 0.5))) cum_W) ;;
  let cross_pt := (Z.of_nat k - 1)%Z in
  c1 <- py_index cum_W (cross_pt + 1) ;;
  c0 <- py_index cum_W cross_pt ;;
  ds <- not_none (diameter self) ;;
  d1 <- py_index ds (cross_pt + 1) ;;
  d0 <- py_index ds cross_pt ;;
  let slope := fdiv (fsub c1 c0) (fsub d1 d0) in
  let run := fdiv (fsub (fmul (Fin 0.5) last) c0) slope in
  Ok (fadd d0 run).

(** [self.attr[t] = v] for an attribute read with [proj] and rebound with
    [set]. *)
Definition setitem_attr
    (proj : DropSizeDistribution -> option (list npfloat))
    (set : option (list npfloat) -> DropSizeDistribution ->
           DropSizeDistribution)
    (t : nat) (v : npfloat) : M unit :=
  self <-- get ;;
  a <-- lift (getattr (proj self)) ;;
  a' <-- lift (np_setitem a t v) ;;
  modify (set (Some a')).

(** Lines 194 to 199 of [calc_dsd_parameterization]: the six parameter
    arrays are created here. *)
Definition alloc_dsd_parameters (self : DropSizeDistribution)
  : DropSizeDistribution :=
  let z := Some (np_zeros (length (time self))) in
  set_Dm z (set_Dmax z (set_Nw z (set_D0 z (set_W z (set_Nt z self))))).

(** The body of the loop of [calc_dsd_parameterization], lines 205 to
    211. *)
Definition dsd_parameters_at (t : nat) : M unit :=
  self <-- get ;;
  Nd_t <-- lift (py_index (Nd self) (Z.of_nat t)) ;;
  nt <-- lift (np_dot (spread self) Nd_t) ;;
  _ <-- setitem_attr Nt set_Nt t nt ;;
  nds <-- lift (np_multiply Nd_t (spread self)) ;;
  _ <-- lift (global_name "array") ;;
  ds <-- lift (not_none (diameter self)) ;;
  w <-- lift (np_dot nds (map (fun x => np_power x (Fin 3)) ds)) ;;
  _ <-- setitem_attr W set_W t (fmul vol_constant w) ;;
  d0 <-- lift (_calculate_D0 self Nd_t) ;;
  _ <-- setitem_attr D0 set_D0 t d0 ;;
  self <-- get ;;
  Ws <-- lift (getattr (W self)) ;;
  w_t <-- lift (py_index Ws (Z.of_nat t)) ;;
  Dms <-- lift (getattr (Dm self)) ;;
  dm_t <-- lift (py_index Dms (Z.of_nat t)) ;;
  _ <-- setitem_attr Nw set_Nw t
          (fmul (fdiv (Fin 256.0) (fmul np_pi rho_w))
                (fdiv w_t (np_power dm_t (Fin 4)))) ;;
  last <-- lift (__get_last_nonzero Nd_t) ;;
  ds <-- lift (not_none (diameter self)) ;;
  dmax <-- lift (py_index ds (Z.of_nat last)) ;;
  setitem_attr Dmax set_Dmax t dmax.

(** [calc_dsd_parameterization]. *)
Definition calc_dsd_parameterization (method : string) : M unit :=
  _ <-- modify alloc_dsd_parameters ;;
  self <-- get ;;
  m4 <-- lift (_calc_mth_moment self (Fin 4)) ;;
  m3 <-- lift (_calc_mth_moment self (Fin 3)) ;;
  dm <-- lift (np_divide m4 m3) ;;
  _ <-- modify (set_Dm (Some dm)) ;;
  for_range (length (time self)) dsd_parameters_at.

(** [_mmultiply]: the running product of its arguments, started from an
    array of ones as long as the first. *)
Definition _mmultiply (args : list (list npfloat)) : result (list npfloat) :=
  match args with
  | [] => Raise IndexError
  | a0 :: _ =>
      fold_left (fun acc i => i_value <- acc ;; np_multiply i_value i)
                args (Ok (np_ones (length a0)))
  end.

(** The fall velocities of [calculate_RR], the first one overwritten. *)
Definition fall_velocity (d : npfloat) : npfloat :=
  fsub (Fin 9.65) (fmul (Fin 10.3) (np_exp (fmul (Fin (- 0.6)) d))).

Definition rain_rate_at (t : nat) : M unit :=
  self <-- get ;;
  ds <-- lift (not_none (diameter self)) ;;
  velocity <-- lift (np_setitem (map fall_velocity ds) 0 (Fin 0.5)) ;;
  Nd_t <-- lift (py_index (Nd self) (Z.of_nat t)) ;;
  prod <-- lift (_mmultiply [velocity; Nd_t; spread self;
                             map (fun x => np_power x (Fin 3)) ds]) ;;
  setitem_attr rain_rate set_rain_rate t
    (fmul (fmul (fmul (Fin 0.6) np_pi) (Fin 1e-03)) (np_sum prod)).

(** [calculate_RR]. *)
Definition calculate_RR : M unit :=
  self <-- get ;;
  _ <-- modify (set_rain_rate (Some (np_zeros (length (time self))))) ;;
  for_range (length (time self)) rain_rate_at.

(** dB to linear scale, [np.power(10, 0.1 * x)], and [_idb], which maps
    it over an array. *)
Definition db_to_linear (x : npfloat) : npfloat :=
  np_power (Fin 10) (fmul (Fin 0.1) x).

Definition _idb (db : list npfloat) : list npfloat := map db_to_linear db.

(** [np.log10], and the conversion to dB that [calc_radar_parameters]
    applies to the reflectivities, [10 * np.log10(x)] (lines 131 and
    132). *)
Definition np_log10 (x : npfloat) : npfloat :=
  match x with
  | Fin r =>
      if Rltb 0 r then Fin (ln r / ln 10)
      else if Reqb r 0 then Inf true else NaN
  | Inf false => Inf false
  | Inf true => NaN
  | NaN => NaN
  end.

Definition to_dB (x : npfloat) : npfloat := fmul (Fin 10) (np_log10 x).

(** [a > 0], elementwise. *)
Definition gt0 (a : list npfloat) : list bool :=
  map (fun x => fgtb x (Fin 0)) a.

(** ** The relationship fits

    [expfit] and [expfit2] come from the module [expfit], which the class
    imports; they are parameters here, as is the type of the pair
    [(popt, pcov)] they return. *)

Section Relationships.

Variable fit : Type.
Variable expfit : list npfloat -> list npfloat -> result fit.
Variable expfit2 : list (list npfloat) -> list npfloat -> result fit.

Definition calc_R_kdp_relationship (self : DropSizeDistribution)
  : result fit :=
  rr <- not_none (rain_rate self) ;;
  filt <- np_logical_and (gt0 (Kdp self)) (gt0 rr) ;;
  x <- np_mask (Kdp self) filt ;;
  y <- np_mask rr filt ;;
  expfit x y.

Definition calc_R_Zh_relationship (self : DropSizeDistribution)
  : result fit :=
  rr <- not_none (rain_rate self) ;;
  zh <- np_mask (Zh self) (gt0 rr) ;;
  y <- np_mask rr (gt0 rr) ;;
  expfit (map db_to_linear zh) y.

(** The filter shared by the three two-predictor fits:
    [rain_rate > 0], [Zdr > 0] and [Kdp > 0]. *)
Definition joint_filter (self : DropSizeDistribution) (rr : list npfloat)
  : result (list bool) :=
  f <- np_logical_and (gt0 rr) (gt0 (Zdr self)) ;;
  np_logical_and f (gt0 (Kdp self)).

Definition calc_R_Zh_Zdr_relationship (self : DropSizeDistribution)
  : result fit :=
  rr <- not_none (rain_rate self) ;;
  filt <- joint_filter self rr ;;
  zh <- np_mask (Zh self) filt ;;
  zdr <- np_mask (Zdr self) filt ;;
  y <- np_mask rr filt ;;
  expfit2 [_idb zh; _idb zdr] y.

Definition calc_R_Zh_Kdp_relationship (self : DropSizeDistribution)
  : result fit :=
  rr <- not_none (rain_rate self) ;;
  filt <- joint_filter self rr ;;
  zh <- np_mask (Zh self) filt ;;
  kdp <- np_mask (Kdp self) filt ;;
  y <- np_mask rr filt ;;
  expfit2 [_idb zh; kdp] y.

Definition calc_R_Zdr_Kdp_relationship (self : DropSizeDistribution)
  : result fit :=
  rr <- not_none (rain_rate self) ;;
  filt <- joint_filter self rr ;;
  zdr <- np_mask (Zdr self) filt ;;
  kdp <- np_mask (Kdp self) filt ;;
  y <- np_mask rr filt ;;
  expfit2 [_idb zdr; kdp] y.

End Relationships.

(** ** The quantities of the specification

    These follow the words of the specification, over the bins as real
    numbers, and are what the methods are compared with. *)

Module Spec.

(** [Σ_{j <= k} f j]. *)
Fixpoint sum_upto (f : nat -> R) (k : nat) : R :=
  match k with
  | O => f O
  | S k' => sum_upto f k' + f (S k')
  end.

(** [Σ_{i < n} f i] over floating point values. *)
Definition fsum_below (f : nat -> npfloat) (n : nat) : npfloat :=
  fold_left fadd (map f (seq 0 n)) (Fin 0).

(** The [m]-th moment at one time step:
    [Σ_i diameter_i^m · Nd[t,i] · spread_i]. *)
Definition moment (m : npfloat) (diameter spread Nd_t : list npfloat)
  : npfloat :=
  fsum_below (fun i => fmul (fmul (np_power (nth i diameter NaN) m)
                                  (nth i Nd_t NaN))
                            (nth i spread NaN))
             (length diameter).

(** [Nd[t,j] · spread_j · diameter_j^3]. *)
Definition water_term (N spread diameter : list R) (j : nat) : R :=
  nth j N 0 * nth j spread 0 * nth j diameter 0 ^ 3.

(** [cumW[k] = C_w · Σ_{j <= k} Nd[t,j] · spread_j · diameter_j^3]. *)
Definition cumW (C_w : R) (N spread diameter : list R) (k : nat) : R :=
  C_w * sum_upto (water_term N spread diameter) k.

(** [k] is the smallest index with [cumW[k] >= 0.5 · cumW[N-1]]. *)
Definition half_mass_crossing (C_w : R) (N spread diameter : list R)
    (k : nat) : Prop :=
  let cw := cumW C_w N spread diameter in
  (k < length N)%nat /\
  cw k >= 0.5 * cw (length N - 1)%nat /\
  forall j, (j < k)%nat -> ~ cw j >= 0.5 * cw (length N - 1)%nat.

(** Linear interpolation between two points of the cumulative curve:
    [slope = (c1 - c0) / (d1 - d0)], [run = (half - c0) / slope], and the
    result [d0 + run]. *)
Definition interpolate (c0 c1 half d0 d1 : R) : npfloat :=
  let slope := fdiv (Fin (c1 - c0)) (Fin (d1 - d0)) in
  let run := fdiv (Fin (half - c0)) slope in
  fadd (Fin d0) run.

(** The median volume diameter for the crossing bin [k], interpolated in
    the bin before it, [cross = k - 1]. *)
Definition D0 (C_w : R) (N spread diameter : list R) (k : nat) : npfloat :=
  let cw := cumW C_w N spread diameter in
  let cross := (k - 1)%nat in
  interpolate (cw cross) (cw (cross + 1)%nat) (0.5 * cw (length N - 1)%nat)
    (nth cross diameter 0) (nth (cross + 1) diameter 0).

(** The fall velocity of bin [i]: [0.5] for the smallest bin,
    [9.65 - 10.3·exp(-0.6·diameter_i)] for the others. *)
Definition v (diameter : list npfloat) (i : nat) : npfloat :=
  match i with
  | O => Fin 0.5
  | S _ => fsub (Fin 9.65)
             (fmul (Fin 10.3)
                (np_exp (fmul (Fin (- 0.6)) (nth i diameter NaN))))
  end.

(** [0.6·π·1e-3 · Σ_i v_i · Nd[t,i] · spread_i · diameter_i^3]. *)
Definition rain_rate (diameter spread Nd_t : list npfloat) : npfloat :=
  fmul (fmul (fmul (Fin 0.6) (Fin PI)) (Fin 1e-3))
    (fsum_below (fun i =>
        fmul (fmul (fmul (v diameter i) (nth i Nd_t NaN)) (nth i spread NaN))
             (np_power (nth i diameter NaN) (Fin 3)))
      (length diameter)).

(** The time steps at which every one of the given arrays is strictly
    positive, in order. *)
Definition joint_rows (filters : list (list npfloat)) (T : nat) : list nat :=
  filter (fun t => forallb (fun a => fgtb (nth t a NaN) (Fin 0)) filters)
         (seq 0 T).

(** The values of an array at the given rows. *)
Definition rows_of (a : list npfloat) (rows : list nat) : list npfloat :=
  map (fun t => nth t a NaN) rows.

End Spec.

(** ** Objects used as examples *)

(** The end-to-end scenario of the specification: one time step, four
    bins between 0 and 4 mm. *)
Module Scenario.

Definition edges : list npfloat := [Fin 0; Fin 1; Fin 2; Fin 3; Fin 4].
Definition diam : list npfloat := [Fin 0.5; Fin 1.5; Fin 2.5; Fin 3.5].
Definition widths : list npfloat := [Fin 1; Fin 1; Fin 1; Fin 1].
Definition counts : list npfloat := [Fin 0; Fin 10; Fin 5; Fin 0].

Definition dsd : DropSizeDistribution :=
  __init__ [Fin 0] [counts] widths None None None None
    (Some edges) (Some diam).

End Scenario.

(** An object with one time step and one bin, which is empty. *)
Module OneBin.

Definition dsd : DropSizeDistribution :=
  __init__ [Fin 0] [[Fin 0]] [Fin 1] None None None None
    (Some [Fin 0; Fin 1]) (Some [Fin 0.5]).

Definition moment_of (m : npfloat) : list npfloat :=
  [fmul (fmul (np_power (Fin 0.5) m) (Fin 0)) (fsub (Fin 1) (Fin 0))].

End OneBin.

(** Two bins of one drop each: the half-mass crossing is in the second
    bin. *)
Module TwoBins.

Definition counts : list R := [1; 1].
Definition widths : list R := [1; 1].
Definition diam : list R := [1; 2].

Definition dsd : DropSizeDistribution :=
  __init__ [Fin 0] [map Fin counts] (map Fin widths) None None None None
    (Some [Fin 0.5; Fin 1.5; Fin 2.5]) (Some (map Fin diam)).

End TwoBins.

(** Three bins with most of the water in the first one: the half-mass
    crossing is in the first bin.  The last bin is empty; [dsd_wide]
    differs from [dsd] in the diameter and upper edge of that bin only. *)
Module FirstBin.

Definition counts : list R := [16; 1; 0].
Definition widths : list R := [1; 1; 1].
Definition diam : list R := [1; 2; 3].
Definition diam_wide : list R := [1; 2; 5].

Definition dsd : DropSizeDistribution :=
  __init__ [Fin 0] [map Fin counts] (map Fin widths) None None None None
    (Some [Fin 0.5; Fin 1.5; Fin 2.5; Fin 3.5]) (Some (map Fin diam)).

Definition dsd_wide : DropSizeDistribution :=
  __init__ [Fin 0] [map Fin counts] (map Fin widths) None None None None
    (Some [Fin 0.5; Fin 1.5; Fin 2.5; Fin 7.5]) (Some (map Fin diam_wide)).

End FirstBin.

(** A time step without drops, on the four bins of the scenario. *)
Module Empty.

Definition counts : list npfloat := [Fin 0; Fin 0; Fin 0; Fin 0].

Definition dsd : DropSizeDistribution :=
  __init__ [Fin 0] [counts] Scenario.widths None None None None
    (Some Scenario.edges) (Some Scenario.diam).

End Empty.

(** One time step and one bin between 1.5 and 2.5 mm that holds two
    drops. *)
Module OneDrop.

Definition counts : list R := [2].
Definition widths : list R := [1].
Definition diam : list R := [2].

Definition dsd : DropSizeDistribution :=
  __init__ [Fin 0] [map Fin counts] (map Fin widths) None None None None
    (Some [Fin 1.5; Fin 2.5]) (Some (map Fin diam)).

End OneDrop.

(** One time step and two bins, with two drops in the smallest bin and
    none in the other. *)
Module SmallestBin.

Definition diam : list R := [2; 3].
Definition widths : list R := [1; 1].

Definition dsd : DropSizeDistribution :=
  __init__ [Fin 0] [[Fin 2; Fin 0]] (map Fin widths) None None None None
    (Some [Fin 1.5; Fin 2.5; Fin 3.5]) (Some (map Fin diam)).

End SmallestBin.

(** Three time steps with radar parameters and rain rates of both signs,
    and a stand-in for the fitting routines that returns the number of
    rows it is given. *)
Module Fitted.

Definition dsd : DropSizeDistribution :=
  set_Kdp [Fin 0.5; Fin (- 1); Fin 2]
    (set_Zdr [Fin 1; Fin 1; Fin 0]
       (set_Zh [Fin 30; Fin 20; Fin 10]
          (__init__ [Fin 0; Fin 1; Fin 2] [[Fin 1]; [Fin 1]; [Fin 1]]
             [Fin 1] (Some [Fin 3; Fin 4; Fin 5]) None None None
             (Some [Fin 0; Fin 1]) (Some [Fin 0.5])))).

Definition count_rows (x y : list npfloat) : result nat := Ok (length y).
Definition count_rows2 (x : list (list npfloat)) (y : list npfloat)
  : result nat := Ok (length y).

End Fitted.

(** ** Facts about the arithmetic *)

Section Arithmetic.

Lemma Rltb_true (a b : R) : a < b -> Rltb a b = true.
Proof. intro H. unfold Rltb. destruct (Rlt_dec a b); [reflexivity | contradiction]. Qed.

Lemma Rltb_false (a b : R) : ~ a < b -> Rltb a b = false.
Proof. intro H. unfold Rltb. destruct (Rlt_dec a b); [contradiction | reflexivity]. Qed.

Lemma Reqb_true (a b : R) : a = b -> Reqb a b = true.
Proof. intro H. unfold Reqb. destruct (Req_EM_T a b); [reflexivity | contradiction]. Qed.

Lemma Reqb_false (a b : R) : a <> b -> Reqb a b = false.
Proof. intro H. unfold Reqb. destruct (Req_EM_T a b); [contradiction | reflexivity]. Qed.

Lemma Reqb_eq (a b : R) : Reqb a b = true -> a = b.
Proof. unfold Reqb. destruct (Req_EM_T a b); [trivial | discriminate]. Qed.

Lemma Reqb_neq (a b : R) : Reqb a b = false -> a <> b.
Proof. unfold Reqb. destruct (Req_EM_T a b); [discriminate | trivial]. Qed.

Lemma fmul_1_l (x : npfloat) : fmul (Fin 1) x = x.
Proof.
  destruct x as [r | s | ]; simpl; trivial.
  - f_equal. ring.
  - rewrite Reqb_false by lra. rewrite Rltb_false by lra. reflexivity.
Qed.

Lemma fadd_0_l (x : npfloat) : fadd (Fin 0) x = x.
Proof. destruct x as [r | s | ]; simpl; trivial. f_equal. ring. Qed.

Lemma is_integer_INR (n : nat) : is_integer (INR n) = true.
Proof.
  unfold is_integer. rewrite Int_part_INR. apply Reqb_true.
  symmetry. apply INR_IZR_INZ.
Qed.

(** On a finite base a positive integer exponent is the repeated
    product, whatever the sign of the base. *)
Lemma np_power_3 (r : R) : np_power (Fin r) (Fin 3) = Fin (r ^ 3).
Proof.
  assert (E : 3 = INR 3) by (simpl; lra).
  unfold np_power, pow_finite. rewrite Reqb_false by lra.
  destruct (Rlt_dec 0 r) as [Hp | Hn].
  - rewrite Rltb_true by assumption. rewrite E, Rpower_pow by assumption.
    reflexivity.
  - rewrite Rltb_false by assumption.
    destruct (Req_EM_T r 0) as [Hz | Hnz].
    + rewrite Reqb_true by assumption. rewrite Rltb_true by lra.
      subst r. f_equal. ring.
    + rewrite Reqb_false by assumption. unfold is_odd_integer.
      rewrite E, is_integer_INR, Int_part_INR. simpl Z.odd. simpl andb.
      rewrite Rpower_pow by lra. f_equal. ring.
Qed.

Lemma np_power_4 (r : R) : np_power (Fin r) (Fin 4) = Fin (r ^ 4).
Proof.
  assert (E : 4 = INR 4) by (simpl; lra).
  unfold np_power, pow_finite. rewrite Reqb_false by lra.
  destruct (Rlt_dec 0 r) as [Hp | Hn].
  - rewrite Rltb_true by assumption. rewrite E, Rpower_pow by assumption.
    reflexivity.
  - rewrite Rltb_false by assumption.
    destruct (Req_EM_T r 0) as [Hz | Hnz].
    + rewrite Reqb_true by assumption. rewrite Rltb_true by lra.
      subst r. f_equal. ring.
    + rewrite Reqb_false by assumption. unfold is_odd_integer.
      rewrite E, is_integer_INR, Int_part_INR. simpl Z.odd. simpl andb.
      rewrite Rpower_pow by lra. f_equal. ring.
Qed.

(** A power with a positive finite exponent is finite only on a finite
    base. *)
Lemma np_power_finite_inv (x : npfloat) (m p : R) :
  0 < m -> np_power x (Fin m) = Fin p -> exists r, x = Fin r.
Proof.
  intros Hm H. destruct x as [r | s | ].
  - now exists r.
  - unfold np_power, pow_finite in H.
    rewrite Reqb_false, Rltb_true in H by lra. discriminate.
  - unfold np_power, pow_finite in H.
    rewrite Reqb_false in H by lra. discriminate.
Qed.

Lemma quotient_value (x y q : R) : y <> 0 -> x = q * y -> x / y = q.
Proof. intros Hy ->. field. exact Hy. Qed.

Lemma W_const_value : W_const = Fin (1e-3 * PI / 6).
Proof.
  unfold W_const, np_pi. simpl. rewrite Reqb_false by lra.
  f_equal. lra.
Qed.

Lemma vol_constant_value : vol_constant = Fin (1e-2 * PI / 6 * 1).
Proof.
  unfold vol_constant, np_pi, rho_w. cbn [fmul fdiv].
  rewrite Reqb_false by lra. cbn [fmul]. f_equal. lra.
Qed.

End Arithmetic.

(** ** Facts about the array operations *)

Section Arrays.

Lemma np_setitem_length {A} (l : list A) (t : nat) (v : A) (l' : list A) :
  np_setitem l t v = Ok l' -> length l' = length l.
Proof.
  revert t l'. induction l as [ | x l IH]; intros [ | t] l' H; simpl in H;
    try discriminate.
  - injection H as <-. reflexivity.
  - destruct (np_setitem l t v) as [r | e] eqn:E; simpl in H; [ | discriminate].
    injection H as <-. simpl. f_equal. eapply IH; eassumption.
Qed.

Lemma np_setitem_in_range {A} (l : list A) (t : nat) (v : A) :
  (t < length l)%nat -> exists l', np_setitem l t v = Ok l'.
Proof.
  revert t. induction l as [ | x l IH]; intros [ | t] H; simpl in *; try lia.
  - eexists; reflexivity.
  - destruct (IH t) as [l' E]; [lia | ]. rewrite E. simpl. eexists; reflexivity.
Qed.

Lemma np_setitem_nth {A} (l : list A) (t : nat) (v d : A) (l' : list A) :
  np_setitem l t v = Ok l' ->
  nth t l' d = v /\ forall u, u <> t -> nth u l' d = nth u l d.
Proof.
  revert t l'. induction l as [ | x l IH]; intros [ | t] l' H; simpl in H;
    try discriminate.
  - injection H as <-. split; [reflexivity | ].
    intros [ | u] Hu; [congruence | reflexivity].
  - destruct (np_setitem l t v) as [r | e] eqn:E; simpl in H; [ | discriminate].
    injection H as <-. destruct (IH _ _ E) as [H1 H2]. split; [exact H1 | ].
    intros [ | u] Hu; [reflexivity | ]. simpl. apply H2. congruence.
Qed.

Lemma zip_with_length {A B C} (f : A -> B -> C) (a : list A) (b : list B) :
  length a = length b -> length (zip_with f a b) = length a.
Proof.
  intro H. unfold zip_with. rewrite length_map, length_combine. lia.
Qed.

Lemma zip_with_length_min {A B C} (f : A -> B -> C) (a : list A)
    (b : list B) :
  length (zip_with f a b) = Nat.min (length a) (length b).
Proof. unfold zip_with. now rewrite length_map, length_combine. Qed.

Lemma zip_with_nth {A B C} (f : A -> B -> C) (a : list A) (b : list B)
    (i : nat) (da : A) (db : B) (dc : C) :
  (i < length a)%nat -> (i < length b)%nat ->
  nth i (zip_with f a b) dc = f (nth i a da) (nth i b db).
Proof.
  revert b i. induction a as [ | x a IH]; intros [ | y b] [ | i] Ha Hb;
    simpl in *; try lia; trivial.
  apply IH; lia.
Qed.

Lemma np_binop_same_length f (a b : list npfloat) :
  length a = length b -> np_binop f a b = Ok (zip_with f a b).
Proof. intro H. unfold np_binop. rewrite H, Nat.eqb_refl. reflexivity. Qed.

Lemma np_binop_length f (a b r : list npfloat) :
  np_binop f a b = Ok r ->
  length r = length a /\ length a = length b \/
  length a = 1%nat /\ length r = length b \/
  length b = 1%nat /\ length r = length a.
Proof.
  unfold np_binop. destruct (Nat.eqb (length a) (length b)) eqn:E.
  - apply Nat.eqb_eq in E. intro H. injection H as <-. left.
    split; [now apply zip_with_length | assumption].
  - destruct a as [ | x [ | x' a]].
    + destruct b as [ | y [ | y' b]]; intro H; try discriminate.
      injection H as <-. right; right. auto.
    + intro H. injection H as <-. right; left. rewrite length_map. auto.
    + destruct b as [ | y [ | y' b]]; intro H; try discriminate.
      injection H as <-. right; right. simpl. rewrite ?length_map. auto.
Qed.

Lemma map_result_length {A B} (f : A -> result B) (l : list A) (r : list B) :
  map_result f l = Ok r -> length r = length l.
Proof.
  revert r. induction l as [ | x l IH]; intros r H; simpl in H.
  - injection H as <-. reflexivity.
  - destruct (f x) as [y | e]; simpl in H; [ | discriminate].
    destruct (map_result f l) as [ys | e]; simpl in H; [ | discriminate].
    injection H as <-. simpl. f_equal. now apply IH.
Qed.

Lemma map_result_all_ok {A B} (f : A -> result B) (g : A -> B) (l : list A) :
  (forall x, In x l -> f x = Ok (g x)) -> map_result f l = Ok (map g l).
Proof.
  induction l as [ | x l IH]; intro H; simpl; [reflexivity | ].
  rewrite H by (left; reflexivity). simpl.
  rewrite IH by (intros; apply H; right; assumption). reflexivity.
Qed.

Lemma py_index_nat {A} (l : list A) (k : nat) (d : A) :
  (k < length l)%nat -> py_index l (Z.of_nat k) = Ok (nth k l d).
Proof.
  intro H. unfold py_index.
  assert (E1 : (Z.of_nat k <? 0)%Z = false) by (apply Z.ltb_ge; lia).
  rewrite E1.
  assert (E2 : ((0 <=? Z.of_nat k) && (Z.of_nat k <? Z.of_nat (length l)))%Z%bool
               = true).
  { apply andb_true_intro. split; [apply Z.leb_le | apply Z.ltb_lt]; lia. }
  rewrite E2, Nat2Z.id.
  destruct (nth_error l k) as [a | ] eqn:E.
  - f_equal. symmetry. now apply nth_error_nth.
  - apply nth_error_None in E. lia.
Qed.

Lemma py_index_last {A} (l : list A) (d : A) :
  l <> [] -> py_index l (-1) = Ok (nth (length l - 1) l d).
Proof.
  intro H. assert (0 < length l)%nat by (destruct l; simpl; [congruence | lia]).
  unfold py_index. change (-1 <? 0)%Z with true. cbv beta iota zeta.
  assert (E2 : ((0 <=? -1 + Z.of_nat (length l)) &&
                (-1 + Z.of_nat (length l) <? Z.of_nat (length l)))%Z%bool = true).
  { apply andb_true_intro. split; [apply Z.leb_le | apply Z.ltb_lt]; lia. }
  rewrite E2.
  replace (Z.to_nat (-1 + Z.of_nat (length l))) with (length l - 1)%nat by lia.
  destruct (nth_error l (length l - 1)) as [a | ] eqn:E.
  - f_equal. symmetry. now apply nth_error_nth.
  - apply nth_error_None in E. lia.
Qed.

(** The exceptions the array operations can raise. *)
Lemma py_index_exn {A} (l : list A) (i : Z) (e : pyexn) :
  py_index l i = Raise e -> e = IndexError.
Proof.
  unfold py_index.
  destruct (_ && _)%bool; [destruct (nth_error _ _) | ]; congruence.
Qed.

Lemma np_setitem_exn {A} (l : list A) (t : nat) (v : A) (e : pyexn) :
  np_setitem l t v = Raise e -> e = IndexError.
Proof.
  revert t. induction l as [ | x l IH]; intros [ | t] H; simpl in H;
    try congruence.
  destruct (np_setitem l t v) eqn:E; simpl in H; [discriminate | ].
  injection H as <-. eapply IH; eassumption.
Qed.

Lemma np_binop_exn f (a b : list npfloat) (e : pyexn) :
  np_binop f a b = Raise e -> e = ValueError.
Proof.
  unfold np_binop. destruct (Nat.eqb _ _); [discriminate | ].
  destruct a as [ | x [ | x' a]]; destruct b as [ | y [ | y' b]]; congruence.
Qed.

Lemma np_dot_exn (a b : list npfloat) (e : pyexn) :
  np_dot a b = Raise e -> e = ValueError.
Proof. unfold np_dot. destruct (Nat.eqb _ _); congruence. Qed.

Lemma index_false_first (l : list bool) (k : nat) :
  (k < length l)%nat -> nth k l true = false ->
  (forall j, (j < k)%nat -> nth j l true = true) ->
  index_false l = Ok k.
Proof.
  revert k. induction l as [ | b l IH]; intros k Hk Hf Ht; simpl in Hk; [lia | ].
  destruct k as [ | k].
  - simpl in Hf. subst b. reflexivity.
  - assert (b = true) by (apply (Ht 0%nat); lia). subst b. simpl.
    rewrite (IH k); [reflexivity | lia | exact Hf | ].
    intros j Hj. apply (Ht (S j)). lia.
Qed.

End Arrays.

(** ** The moments: [_calc_mth_moment] *)

Section Moments.

Lemma bin_widths_length (edges : list npfloat) :
  length (bin_widths edges) = (length edges - 1)%nat.
Proof.
  induction edges as [ | a [ | b rest] IH]; simpl in *; try reflexivity.
  rewrite IH. lia.
Qed.

Lemma rectangular_rows (M : list (list npfloat)) (n : nat) :
  (forall row, In row M -> length row = n) -> rectangular M = true.
Proof.
  destruct M as [ | r M]; intro H; simpl; [reflexivity | ].
  apply forallb_forall. intros r' Hr'. apply Nat.eqb_eq.
  rewrite (H r') by (right; assumption). symmetry. apply H. left; reflexivity.
Qed.

Lemma as_scalar_cases (M : list (list npfloat)) :
  as_scalar M = Raise ValueError \/ exists x, M = [[x]].
Proof.
  destruct M as [ | [ | x [ | y r]] [ | r' M]]; simpl; auto.
  right. now exists x.
Qed.

(** With the whole of [Nd] on the right-hand side, the product has the
    shape of [Nd]. *)
Lemma moment_product_shape (v w : list npfloat) (M : list (list npfloat))
    (n : nat) :
  length v = n -> length w = n ->
  (forall row, In row M -> length row = n) ->
  exists P,
    (a <- np_multiply_1d_2d v M ;; np_multiply_2d_1d a w) = Ok P /\
    length P = length M /\ forall row, In row P -> length row = n.
Proof.
  intros Hv Hw HM.
  set (f := fun row : list npfloat => zip_with fmul v row).
  set (g := fun row : list npfloat => zip_with fmul row w).
  assert (E1 : np_multiply_1d_2d v M = Ok (map f M)).
  { unfold np_multiply_1d_2d. rewrite (rectangular_rows M HM).
    apply map_result_all_ok. intros row Hrow. unfold np_multiply.
    apply np_binop_same_length. rewrite (HM row Hrow). assumption. }
  assert (Hf : forall row, In row (map f M) -> length row = n).
  { intros row Hrow. apply in_map_iff in Hrow. destruct Hrow as [r [<- Hr]].
    unfold f. rewrite zip_with_length; rewrite ?(HM r Hr); assumption. }
  assert (E2 : np_multiply_2d_1d (map f M) w = Ok (map g (map f M))).
  { unfold np_multiply_2d_1d. rewrite (rectangular_rows (map f M) Hf).
    apply map_result_all_ok. intros row Hrow. unfold np_multiply.
    apply np_binop_same_length. rewrite (Hf row Hrow). symmetry; assumption. }
  exists (map g (map f M)). rewrite E1. simpl. rewrite E2.
  split; [reflexivity | ]. split; [now rewrite !length_map | ].
  intros row Hrow. apply in_map_iff in Hrow. destruct Hrow as [r [<- Hr]].
  unfold g. rewrite zip_with_length; rewrite ?(Hf r Hr); [reflexivity | ].
  symmetry; assumption.
Qed.

(** On an object that satisfies the length invariants and has at least
    one time step, [_calc_mth_moment] raises unless there is exactly one
    time step and one bin. *)
Lemma _calc_mth_moment_raises (self : DropSizeDistribution) (m : npfloat)
    (edges d : list npfloat) (n : nat) :
  bin_edges self = Some edges -> diameter self = Some d ->
  length edges = S n -> length d = n ->
  length (Nd self) = length (time self) ->
  (forall row, In row (Nd self) -> length row = n) ->
  (1 <= length (time self))%nat ->
  ~ (length (time self) = 1%nat /\ n = 1%nat) ->
  _calc_mth_moment self m = Raise ValueError.
Proof.
  intros He Hd Le Ld LN Hrows HT Hshape.
  unfold _calc_mth_moment. rewrite He. simpl.
  destruct (length (time self)) as [ | T] eqn:ET; [lia | ].
  simpl. rewrite Hd. simpl.
  destruct (moment_product_shape
              (map (fun x => np_power x m) d) (bin_widths edges) (Nd self)
              (n := n)) as [P [EP [LP HP]]].
  - rewrite length_map. assumption.
  - rewrite bin_widths_length. lia.
  - assumption.
  - simpl in EP.
    destruct (np_multiply_1d_2d (map (fun x => np_power x m) d) (Nd self))
      as [a | e]; simpl in EP; [ | discriminate].
    simpl. rewrite EP. simpl.
    destruct (as_scalar_cases P) as [-> | [x ->]]; [reflexivity | ].
    exfalso. apply Hshape. simpl in LP. split; [lia | ].
    symmetry. apply (HP [x]). left; reflexivity.
Qed.

End Moments.

(** C1 (the code departs from the claim).  On the end-to-end scenario of
    the specification [_calc_mth_moment] raises [ValueError] for every
    exponent, because it stores the unsummed product with the whole of
    [Nd] into one element, where the third moment of the specification is
    [111.875]. *)
Theorem calc_mth_moment_raises_on_scenario :
  (forall m, _calc_mth_moment Scenario.dsd m = Raise ValueError) /\
  Spec.moment (Fin 3) Scenario.diam Scenario.widths Scenario.counts
    = Fin 111.875.
Proof.
  split.
  - intro m.
    apply (@_calc_mth_moment_raises Scenario.dsd m Scenario.edges
             Scenario.diam 4); try reflexivity; try (simpl; lia).
    intros row [<- | []]. reflexivity.
  - unfold Spec.moment, Spec.fsum_below, Scenario.diam, Scenario.widths,
      Scenario.counts.
    cbn [length seq map fold_left nth]. rewrite !np_power_3.
    cbn [fmul fadd]. f_equal. lra.
Qed.

(** ** The parameterization: [calc_dsd_parameterization] *)

Section Parameterization.

(** The name [array] is not bound: line 207 cannot be evaluated. *)
Lemma array_is_unbound : global_name "array" = Raise NameError.
Proof. reflexivity. Qed.

(** One pass through the loop body never completes; all it can change
    is one element of [Nt]. *)
Lemma dsd_parameters_at_raises (t : nat) (s : DropSizeDistribution) :
  exists s' e,
    dsd_parameters_at t s = (s', Raise e) /\ e <> ZeroDivisionError /\
    (s' = s \/
     exists a a', Nt s = Some a /\ length a' = length a /\
                  s' = set_Nt (Some a') s).
Proof.
  unfold dsd_parameters_at, setitem_attr, mbind, get, lift, modify.
  destruct (py_index (Nd s) (Z.of_nat t)) as [Nd_t | e] eqn:E1.
  2:{ apply py_index_exn in E1. subst e. do 2 eexists.
      split; [reflexivity | ]. split; [discriminate | now left]. }
  destruct (np_dot (spread s) Nd_t) as [nt | e] eqn:E2.
  2:{ apply np_dot_exn in E2. subst e. do 2 eexists.
      split; [reflexivity | ]. split; [discriminate | now left]. }
  destruct (Nt s) as [a | ] eqn:EN; simpl.
  2:{ do 2 eexists. split; [reflexivity | ]. split; [discriminate | now left]. }
  destruct (np_setitem a t nt) as [a' | e] eqn:ES; simpl.
  2:{ apply np_setitem_exn in ES. subst e. do 2 eexists.
      split; [reflexivity | ]. split; [discriminate | now left]. }
  destruct (np_multiply Nd_t (spread s)) as [nds | e] eqn:E3; simpl.
  - rewrite ?array_is_unbound. do 2 eexists. split; [reflexivity | ].
    split; [discriminate | ].
    right. exists a, a'. split; [reflexivity | ].
    split; [eapply np_setitem_length; eassumption | reflexivity].
  - apply np_binop_exn in E3. subst e.
    do 2 eexists. split; [reflexivity | ]. split; [discriminate | ].
    right. exists a, a'. split; [reflexivity | ].
    split; [eapply np_setitem_length; eassumption | reflexivity].
Qed.

(** The loop of [calc_dsd_parameterization]: nothing to do without time
    steps, and an exception in the first pass otherwise. *)
Lemma dsd_loop_outcome (T : nat) (s : DropSizeDistribution) :
  (T = 0%nat /\ for_range T dsd_parameters_at s = (s, Ok tt)) \/
  ((1 <= T)%nat /\
   exists s' e,
     for_range T dsd_parameters_at s = (s', Raise e) /\
     e <> ZeroDivisionError /\
     (s' = s \/
      exists a a', Nt s = Some a /\ length a' = length a /\
                   s' = set_Nt (Some a') s)).
Proof.
  destruct T as [ | T]; [left; split; reflexivity | right].
  split; [lia | ].
  destruct (dsd_parameters_at_raises 0 s) as [s' [e [E H]]].
  exists s', e. split; [ | exact H].
  unfold for_range. simpl. unfold mbind. rewrite E. reflexivity.
Qed.

Lemma fill_each_length (ts : list nat) (acc : list npfloat)
    (value : nat -> result npfloat) (r : list npfloat) :
  fill_each ts acc value = Ok r -> length r = length acc.
Proof.
  revert acc. induction ts as [ | t ts IH]; intros acc H; simpl in H.
  - injection H as <-. reflexivity.
  - destruct (value t) as [x | e]; simpl in H; [ | discriminate].
    destruct (np_setitem acc t x) as [acc' | e] eqn:E; simpl in H;
      [ | discriminate].
    rewrite (IH _ H). eapply np_setitem_length; eassumption.
Qed.

Lemma _calc_mth_moment_length (self : DropSizeDistribution) (m : npfloat)
    (r : list npfloat) :
  _calc_mth_moment self m = Ok r -> length r = length (time self).
Proof.
  unfold _calc_mth_moment.
  destruct (not_none (bin_edges self)) as [edges | e]; simpl; [ | discriminate].
  intro H. apply fill_each_length in H. rewrite H. unfold np_zeros.
  apply repeat_length.
Qed.

(** When [_calc_mth_moment] returns on an object with a time step, the
    object has one row of one bin, and every entry of the result is the
    one product. *)
Lemma fill_each_constant (ts : list nat) (acc : list npfloat)
    (value : nat -> result npfloat) (v : npfloat) (r : list npfloat) :
  (forall t, In t ts -> value t = Ok v) ->
  fill_each ts acc value = Ok r ->
  forall t, In t ts \/ nth t acc NaN = v -> nth t r NaN = v.
Proof.
  revert acc. induction ts as [ | u ts IH]; intros acc Hv H t Ht; simpl in H.
  - injection H as <-. destruct Ht as [[] | Ht]. exact Ht.
  - rewrite (Hv u) in H by (left; reflexivity). simpl in H.
    destruct (np_setitem acc u v) as [acc' | e] eqn:E; simpl in H;
      [ | discriminate].
    destruct (np_setitem_nth _ _ _ NaN E) as [Hu Hother].
    apply (IH acc'); [intros; apply Hv; right; assumption | exact H | ].
    destruct (Nat.eq_dec t u) as [-> | Hne]; [right; exact Hu | ].
    destruct Ht as [[Heq | Hin] | Hacc].
    + congruence.
    + left; exact Hin.
    + right. rewrite Hother by assumption. exact Hacc.
Qed.

Lemma np_multiply_singleton (a b : list npfloat) (v : npfloat) :
  np_multiply a b = Ok [v] ->
  exists x y, a = [x] /\ b = [y] /\ v = fmul x y.
Proof.
  intro H. destruct (np_binop_length _ _ _ H) as [[L1 L2] | [[L1 L2] | [L1 L2]]];
    simpl in *;
    (destruct a as [ | x [ | ? ?]]; simpl in *; try lia);
    (destruct b as [ | y [ | ? ?]]; simpl in *; try lia);
    exists x, y; (split; [reflexivity | ]); (split; [reflexivity | ]);
    unfold np_multiply, np_binop, zip_with in H; simpl in H; congruence.
Qed.

Lemma map_result_singleton {A B} (f : A -> result B) (l : list A) (y : B) :
  map_result f l = Ok [y] -> exists x, l = [x] /\ f x = Ok y.
Proof.
  destruct l as [ | x [ | x' l]]; simpl; intro H; try discriminate.
  - exists x. split; [reflexivity | ].
    destruct (f x); simpl in H; congruence.
  - destruct (f x); simpl in H; [ | discriminate].
    destruct (f x'); simpl in H; [ | discriminate].
    destruct (map_result f l); simpl in H; discriminate.
Qed.

Lemma _calc_mth_moment_returns (self : DropSizeDistribution) (m : npfloat)
    (r : list npfloat) :
  _calc_mth_moment self m = Ok r -> (1 <= length (time self))%nat ->
  exists edges d0 n0 b0,
    bin_edges self = Some edges /\ bin_widths edges = [b0] /\
    diameter self = Some [d0] /\ Nd self = [[n0]] /\
    forall t, (t < length (time self))%nat ->
      nth t r NaN = fmul (fmul (np_power d0 m) n0) b0.
Proof.
  unfold _calc_mth_moment. intros H HT.
  destruct (bin_edges self) as [edges | ]; simpl in H; [ | discriminate].
  set (value := fun _ : nat => _) in H.
  destruct (value 0%nat) as [v | e] eqn:Ev.
  2:{ destruct (length (time self)); [lia | ]. simpl in H.
      rewrite Ev in H. discriminate. }
  assert (Hval : forall t, value t = Ok v) by (intro t; exact Ev).
  unfold value in Ev.
  destruct (diameter self) as [d | ]; simpl in Ev; [ | discriminate].
  destruct (np_multiply_1d_2d _ (Nd self)) as [a | e] eqn:Ea; simpl in Ev;
    [ | discriminate].
  destruct (np_multiply_2d_1d a (bin_widths edges)) as [b | e] eqn:Eb;
    simpl in Ev; [ | discriminate].
  destruct (as_scalar_cases b) as [Hb | [x ->]]; [congruence | ].
  simpl in Ev. injection Ev as ->.
  unfold np_multiply_2d_1d in Eb. destruct (rectangular a); [ | discriminate].
  apply map_result_singleton in Eb. destruct Eb as [ra [-> Era]].
  unfold np_multiply_1d_2d in Ea.
  destruct (rectangular (Nd self)); [ | discriminate].
  apply map_result_singleton in Ea. destruct Ea as [rn [EN Ern]].
  apply np_multiply_singleton in Era. destruct Era as [p [b0 [-> [Eb0 ->]]]].
  apply np_multiply_singleton in Ern. destruct Ern as [q [n0 [Eq [-> ->]]]].
  destruct d as [ | d0 [ | d1 d]]; simpl in Eq; try discriminate.
  injection Eq as <-.
  exists edges, d0, n0, b0. repeat (split; [trivial | ]).
  intros t Ht. eapply fill_each_constant; [ | exact H | ].
  - intros u _. apply Hval.
  - left. apply in_seq. lia.
Qed.

Lemma fmul_finite_inv (x y : npfloat) (c : R) :
  fmul x y = Fin c -> exists a b, x = Fin a /\ y = Fin b /\ a * b = c.
Proof.
  destruct x as [a | s | ], y as [b | s' | ]; simpl; intro H;
    try discriminate.
  - exists a, b. injection H as H. auto.
  - destruct (Reqb a 0); discriminate.
  - destruct (Reqb b 0); discriminate.
Qed.

End Parameterization.

(** The moments do not read the parameter arrays. *)
Lemma _calc_mth_moment_alloc (self : DropSizeDistribution) (m : npfloat) :
  _calc_mth_moment (alloc_dsd_parameters self) m = _calc_mth_moment self m.
Proof. unfold _calc_mth_moment. reflexivity. Qed.

(** What [calc_dsd_parameterization] leaves behind when both moments
    are returned, and when one of them raises. *)
Lemma calc_dsd_when_moments_return (self : DropSizeDistribution)
    (method : string) (m4 m3 : list npfloat) :
  _calc_mth_moment self (Fin 4) = Ok m4 ->
  _calc_mth_moment self (Fin 3) = Ok m3 ->
  let s1 := set_Dm (Some (zip_with fdiv m4 m3)) (alloc_dsd_parameters self) in
  exists s' r,
    calc_dsd_parameterization method self = (s', r) /\
    r <> Raise ZeroDivisionError /\
    (s' = s1 \/
     exists a', length a' = length (time self) /\ s' = set_Nt (Some a') s1).
Proof.
  intros H4 H3 s1.
  unfold calc_dsd_parameterization, mbind, modify, get, lift.
  cbv beta iota. rewrite !_calc_mth_moment_alloc.
  rewrite H4, H3.
  unfold np_divide. rewrite np_binop_same_length.
  2:{ rewrite (_calc_mth_moment_length _ _ H4).
      rewrite (_calc_mth_moment_length _ _ H3). reflexivity. }
  fold s1. change (time (alloc_dsd_parameters self)) with (time self).
  destruct (dsd_loop_outcome (length (time self)) s1)
    as [[_ E] | [_ [s' [e [E [He Hs]]]]]].
  - rewrite E. exists s1, (Ok tt). split; [reflexivity | ].
    split; [discriminate | now left].
  - rewrite E. exists s', (Raise e). split; [reflexivity | ].
    split; [congruence | ].
    destruct Hs as [-> | [a [a' [Ha [La ->]]]]]; [now left | right].
    exists a'. split; [ | reflexivity].
    rewrite La. simpl in Ha. injection Ha as <-. apply repeat_length.
Qed.

Lemma calc_dsd_when_a_moment_raises (self : DropSizeDistribution)
    (method : string) (e : pyexn) :
  _calc_mth_moment self (Fin 4) = Raise e \/
  (exists m4, _calc_mth_moment self (Fin 4) = Ok m4 /\
              _calc_mth_moment self (Fin 3) = Raise e) ->
  calc_dsd_parameterization method self
    = (alloc_dsd_parameters self, Raise e).
Proof.
  intro H.
  unfold calc_dsd_parameterization, mbind, modify, get, lift.
  cbv beta iota. rewrite !_calc_mth_moment_alloc.
  destruct H as [-> | [m4 [-> ->]]]; reflexivity.
Qed.

(** Line 203 on its own: when both calls of [_calc_mth_moment] return,
    [calc_dsd_parameterization] leaves [Dm] equal, entry by entry, to the
    quotient of what they returned; where the divisor is zero the entry
    is [nan], and the method does not raise a division error. *)
Theorem Dm_is_quotient_of_moments (self : DropSizeDistribution)
    (method : string) (m4 m3 : list npfloat) :
  _calc_mth_moment self (Fin 4) = Ok m4 ->
  _calc_mth_moment self (Fin 3) = Ok m3 ->
  let run := calc_dsd_parameterization method self in
  snd run <> Raise ZeroDivisionError /\
  exists dm,
    Dm (fst run) = Some dm /\ length dm = length (time self) /\
    forall t, (t < length (time self))%nat ->
      nth t dm NaN = fdiv (nth t m4 NaN) (nth t m3 NaN) /\
      (nth t m3 NaN = Fin 0 -> nth t dm NaN = NaN).
Proof.
  intros H4 H3 run.
  destruct (calc_dsd_when_moments_return self method H4 H3)
    as [s' [r [E [Hr Hs]]]].
  unfold run. rewrite E. simpl fst. simpl snd. split; [exact Hr | ].
  pose proof (_calc_mth_moment_length _ _ H4) as L4.
  pose proof (_calc_mth_moment_length _ _ H3) as L3.
  exists (zip_with fdiv m4 m3). split.
  { destruct Hs as [-> | [a' [_ ->]]]; reflexivity. }
  split; [rewrite zip_with_length; congruence | ].
  intros t Ht.
  assert (Et : nth t (zip_with fdiv m4 m3) NaN
               = fdiv (nth t m4 NaN) (nth t m3 NaN)).
  { apply zip_with_nth; lia. }
  split; [exact Et | ]. intro Hz. rewrite Et, Hz.
  destruct (_calc_mth_moment_returns _ _ H4) as
    [edges [d0 [n0 [b0 [He [Hb [Hd [HN Hv4]]]]]]]]; [lia | ].
  destruct (_calc_mth_moment_returns _ _ H3) as
    [edges' [d0' [n0' [b0' [He' [Hb' [Hd' [HN' Hv3]]]]]]]]; [lia | ].
  rewrite He in He'. injection He' as <-.
  rewrite Hb in Hb'. injection Hb' as <-.
  rewrite Hd in Hd'. injection Hd' as <-.
  rewrite HN in HN'. injection HN' as <-.
  rewrite (Hv4 t Ht). rewrite (Hv3 t Ht) in Hz.
  apply fmul_finite_inv in Hz. destruct Hz as [x [b [Hx [-> Hxb]]]].
  apply fmul_finite_inv in Hx. destruct Hx as [p [n [Hp [-> Hpn]]]].
  destruct (np_power_finite_inv d0 (m := 3) (p := p)) as [d ->];
    [lra | exact Hp | ].
  rewrite np_power_3 in Hp. injection Hp as <-.
  rewrite np_power_4. cbn [fmul fdiv].
  rewrite Reqb_true by reflexivity.
  rewrite Reqb_true; [reflexivity | ].
  destruct (Rmult_integral _ _ Hxb) as [H0 | ->]; [ | ring].
  assert (K : d ^ 3 * n = 0) by (rewrite <- H0; exact Hpn).
  replace (d ^ 4 * n * b) with (d * (d ^ 3 * n) * b) by ring.
  rewrite K. ring.
Qed.

(** ** The median volume diameter: [_calculate_D0] *)

Section MedianVolumeDiameter.

Lemma nth_map_lt {A B} (f : A -> B) (l : list A) (k : nat) (d : A) (d' : B) :
  (k < length l)%nat -> nth k (map f l) d' = f (nth k l d).
Proof.
  intro H. rewrite (nth_indep _ d' (f d)) by (rewrite length_map; exact H).
  apply map_nth.
Qed.

Lemma nth_map_seq {B} (g : nat -> B) (n k : nat) (d' : B) :
  (k < n)%nat -> nth k (map g (seq 0 n)) d' = g k.
Proof.
  intro H. rewrite (nth_map_lt g (seq 0 n) 0%nat d') by (rewrite length_seq; exact H).
  rewrite seq_nth by exact H. reflexivity.
Qed.

Lemma cumsum_from_finite (f : nat -> R) (n k : nat) :
  cumsum_from (Fin (Spec.sum_upto f k))
    (map (fun j => Fin (f j)) (seq (S k) n))
  = map (fun j => Fin (Spec.sum_upto f j)) (seq (S k) n).
Proof.
  revert k. induction n as [ | n IH]; intro k; simpl; [reflexivity | ].
  f_equal. apply (IH (S k)).
Qed.

Lemma np_cumsum_finite (f : nat -> R) (n : nat) :
  np_cumsum (map (fun j => Fin (f j)) (seq 0 n))
  = map (fun j => Fin (Spec.sum_upto f j)) (seq 0 n).
Proof.
  destruct n as [ | n]; simpl; [reflexivity | ].
  f_equal. apply (cumsum_from_finite f n 0).
Qed.

(** On finite bins of equal number the array [cum_W] is the cumulative
    curve of the specification, scaled by [1e-3 * pi / 6]. *)
Lemma cum_W_finite (self : DropSizeDistribution) (N sp d : list R) :
  spread self = map Fin sp -> diameter self = Some (map Fin d) ->
  length sp = length N -> length d = length N ->
  cum_W self (map Fin N)
  = Ok (map (fun k => Fin (Spec.cumW (1e-3 * PI / 6) N sp d k))
            (seq 0 (length N))).
Proof.
  intros Hs Hd Ls Ld. unfold cum_W. rewrite Hs, Hd, length_map.
  rewrite (map_result_all_ok _
             (fun k => Fin (Spec.water_term N sp d k))).
  - simpl rbind. rewrite np_cumsum_finite, map_map. f_equal.
    apply map_ext. intro k. rewrite W_const_value. reflexivity.
  - intros k Hk. apply in_seq in Hk.
    rewrite (py_index_nat _ (Fin 0)) by (rewrite length_map; lia).
    rewrite (py_index_nat _ (Fin 0)) by (rewrite length_map; lia).
    cbn [rbind not_none].
    rewrite (py_index_nat _ (Fin 0)) by (rewrite length_map; lia).
    rewrite !map_nth. cbn [rbind]. rewrite np_power_3. reflexivity.
Qed.

Lemma py_index_before {A} (l : list A) (k : nat) (d : A) :
  (k < length l)%nat ->
  py_index l (Z.of_nat k - 1)
  = Ok (nth (match k with O => length l - 1 | S k' => k' end) l d).
Proof.
  intro H. destruct k as [ | k'].
  - apply py_index_last. destruct l; simpl in *; [lia | congruence].
  - replace (Z.of_nat (S k') - 1)%Z with (Z.of_nat k') by lia.
    apply py_index_nat. lia.
Qed.

(** [_calculate_D0] on finite bins: it interpolates between the entry of
    the crossing bin [k] and the entry before it, and for [k = 0] the
    entry "before" is the last one, through the index [-1]. *)
Lemma _calculate_D0_finite (self : DropSizeDistribution) (N sp d : list R)
    (k : nat) :
  spread self = map Fin sp -> diameter self = Some (map Fin d) ->
  length sp = length N -> length d = length N ->
  Spec.half_mass_crossing (1e-3 * PI / 6) N sp d k ->
  let cw := Spec.cumW (1e-3 * PI / 6) N sp d in
  let before := match k with O => (length N - 1)%nat | S k' => k' end in
  _calculate_D0 self (map Fin N)
  = Ok (Spec.interpolate (cw before) (cw k) (0.5 * cw (length N - 1)%nat)
          (nth before d 0) (nth k d 0)).
Proof.
  intros Hs Hd Ls Ld [Hk [Hge Hlt]] cw before.
  unfold _calculate_D0. rewrite (cum_W_finite self N sp d Hs Hd Ls Ld).
  fold cw. cbn [rbind].
  set (cumw := map (fun j => Fin (cw j)) (seq 0 (length N))).
  assert (Lc : length cumw = length N)
    by (unfold cumw; rewrite length_map, length_seq; reflexivity).
  assert (Hnth : forall j, (j < length N)%nat -> nth j cumw (Fin 0) = Fin (cw j))
    by (intros j Hj; unfold cumw;
        apply (nth_map_seq (fun i => Fin (cw i))); exact Hj).
  rewrite (py_index_last (l := cumw) (Fin 0))
    by (intro E; rewrite E in Lc; simpl in Lc; lia).
  rewrite Lc, Hnth by lia. cbn [rbind fmul].
  rewrite (index_false_first _ (k := k)).
  - cbn [rbind].
    replace (Z.of_nat k - 1 + 1)%Z with (Z.of_nat k) by lia.
    rewrite (py_index_nat _ (Fin 0)) by lia.
    rewrite (py_index_before _ (Fin 0)) by lia.
    rewrite Lc. fold before. rewrite Hd. cbn [rbind not_none].
    rewrite (py_index_nat _ (Fin 0)) by (rewrite length_map; lia).
    rewrite (py_index_before _ (Fin 0)) by (rewrite length_map; lia).
    rewrite length_map, Ld. fold before. cbn [rbind].
    rewrite !map_nth, !Hnth by (unfold before; destruct k; lia).
    unfold Spec.interpolate. cbn [fsub fneg fadd fmul]. reflexivity.
  - rewrite length_map. lia.
  - rewrite (nth_map_lt _ cumw (Fin 0)) by lia. rewrite Hnth by lia.
    cbn [fltb]. apply Rltb_false. fold cw in Hge. lra.
  - intros j Hj. rewrite (nth_map_lt _ cumw (Fin 0)) by lia.
    rewrite Hnth by lia. cbn [fltb]. apply Rltb_true.
    specialize (Hlt j Hj). fold cw in Hlt. lra.
Qed.

(** The interpolation does not depend on a positive scale of the
    cumulative curve, and neither does the crossing bin. *)
Lemma interpolate_scale (w a b h d0 d1 : R) :
  0 < w ->
  Spec.interpolate (w * a) (w * b) (w * h) d0 d1
  = Spec.interpolate a b h d0 d1.
Proof.
  intro Hw. unfold Spec.interpolate. cbn [fdiv].
  destruct (Req_EM_T (d1 - d0) 0) as [Hd | Hd].
  - rewrite !(@Reqb_true (d1 - d0) 0) by exact Hd.
    destruct (Req_EM_T (b - a) 0) as [Hba | Hba].
    + rewrite (@Reqb_true (w * b - w * a) 0) by nra.
      rewrite (@Reqb_true (b - a) 0) by exact Hba. reflexivity.
    + rewrite (@Reqb_false (w * b - w * a) 0) by nra.
      rewrite (@Reqb_false (b - a) 0) by exact Hba. reflexivity.
  - rewrite !(@Reqb_false (d1 - d0) 0) by exact Hd. cbn [fdiv].
    destruct (Req_EM_T (b - a) 0) as [Hba | Hba].
    + assert (E1 : (w * b - w * a) / (d1 - d0) = 0).
      { replace (w * b - w * a) with (w * (b - a)) by ring.
        rewrite Hba. field. exact Hd. }
      assert (E2 : (b - a) / (d1 - d0) = 0).
      { rewrite Hba. field. exact Hd. }
      rewrite E1, E2. rewrite !(@Reqb_true 0 0) by reflexivity.
      destruct (Req_EM_T (h - a) 0) as [Hha | Hha].
      * rewrite (@Reqb_true (w * h - w * a) 0) by nra.
        rewrite (@Reqb_true (h - a) 0) by exact Hha. reflexivity.
      * rewrite (@Reqb_false (w * h - w * a) 0) by nra.
        rewrite (@Reqb_false (h - a) 0) by exact Hha.
        destruct (Rlt_dec (h - a) 0) as [Hlt | Hlt].
        -- rewrite (@Rltb_true (w * h - w * a) 0) by nra.
           rewrite (@Rltb_true (h - a) 0) by exact Hlt. reflexivity.
        -- rewrite (@Rltb_false (w * h - w * a) 0) by nra.
           rewrite (@Rltb_false (h - a) 0) by exact Hlt. reflexivity.
    + assert (N1 : (w * b - w * a) / (d1 - d0) <> 0).
      { intro E. apply Hba.
        assert (K : w * (b - a) = 0).
        { replace (w * (b - a))
            with ((w * b - w * a) / (d1 - d0) * (d1 - d0))
            by (field; exact Hd).
          rewrite E. ring. }
        destruct (Rmult_integral _ _ K); [lra | assumption]. }
      assert (N2 : (b - a) / (d1 - d0) <> 0).
      { intro E. apply Hba.
        replace (b - a) with ((b - a) / (d1 - d0) * (d1 - d0))
          by (field; exact Hd).
        rewrite E. ring. }
      rewrite (@Reqb_false _ 0 N1), (@Reqb_false _ 0 N2).
      cbn [fadd]. f_equal. f_equal. field.
      repeat split; try assumption.
      intro E. apply Hba.
      assert (K : w * (b - a) = 0) by (rewrite <- E; ring).
      destruct (Rmult_integral _ _ K); [lra | assumption].
Qed.

(** Between two distinct diameters and two distinct values of the curve
    the interpolation is a finite number. *)
Lemma interpolate_regular (c0 c1 half d0 d1 : R) :
  d1 - d0 <> 0 -> c1 - c0 <> 0 ->
  Spec.interpolate c0 c1 half d0 d1
  = Fin (d0 + (half - c0) / ((c1 - c0) / (d1 - d0))).
Proof.
  intros Hd Hc. unfold Spec.interpolate. cbn [fdiv].
  rewrite (@Reqb_false (d1 - d0) 0 Hd). cbn [fdiv].
  rewrite Reqb_false; [reflexivity | ].
  intro E. apply Hc.
  replace (c1 - c0) with ((c1 - c0) / (d1 - d0) * (d1 - d0))
    by (field; exact Hd).
  rewrite E. ring.
Qed.


(** *** A time step without drops *)

Lemma zero_or_nan_fmul_l (x y : npfloat) :
  zero_or_nan x -> zero_or_nan (fmul x y).
Proof.
  destruct x as [a | s | ], y as [b | s' | ]; simpl; intro H; trivial;
    try contradiction.
  - subst a. ring.
  - subst a. rewrite Reqb_true by reflexivity. exact I.
Qed.

Lemma zero_or_nan_fmul_r (x y : npfloat) :
  zero_or_nan y -> zero_or_nan (fmul x y).
Proof.
  destruct x as [a | s | ], y as [b | s' | ]; simpl; intro H; trivial;
    try contradiction.
  - subst b. ring.
  - subst b. rewrite Reqb_true by reflexivity. exact I.
Qed.

Lemma zero_or_nan_fadd (x y : npfloat) :
  zero_or_nan x -> zero_or_nan y -> zero_or_nan (fadd x y).
Proof.
  destruct x as [a | s | ], y as [b | s' | ]; simpl; intros Hx Hy; trivial;
    try contradiction.
  subst. ring.
Qed.

Lemma zero_or_nan_fsub (x y : npfloat) :
  zero_or_nan x -> zero_or_nan y -> zero_or_nan (fsub x y).
Proof.
  intros Hx Hy. apply zero_or_nan_fadd; [exact Hx | ].
  destruct y as [b | s' | ]; simpl in *; trivial. subst. ring.
Qed.

Lemma zero_or_nan_fdiv_l (x y : npfloat) :
  zero_or_nan x -> zero_or_nan (fdiv x y).
Proof.
  destruct x as [a | s | ], y as [b | s' | ]; simpl; intro H; trivial;
    try contradiction.
  - subst a. destruct (Reqb b 0) eqn:E.
    + rewrite Reqb_true by reflexivity. exact I.
    + simpl. apply Reqb_neq in E. field. exact E.
Qed.

Lemma fdiv_zero_or_nan (x y : npfloat) :
  zero_or_nan x -> zero_or_nan y -> fdiv x y = NaN.
Proof.
  destruct x as [a | s | ], y as [b | s' | ]; simpl; intros Hx Hy; trivial;
    try contradiction.
  subst. rewrite !Reqb_true by reflexivity. reflexivity.
Qed.

Lemma fltb_zero_or_nan (x y : npfloat) :
  zero_or_nan x -> zero_or_nan y -> fltb x y = false.
Proof.
  destruct x as [a | s | ], y as [b | s' | ]; simpl; intros Hx Hy; trivial;
    try contradiction.
  subst. apply Rltb_false. lra.
Qed.

Lemma fadd_nan_r (x : npfloat) : fadd x NaN = NaN.
Proof. destruct x; reflexivity. Qed.

Lemma cumsum_from_zero_or_nan (acc : npfloat) (l : list npfloat) :
  zero_or_nan acc -> Forall zero_or_nan l ->
  Forall zero_or_nan (cumsum_from acc l).
Proof.
  revert acc. induction l as [ | x l IH]; intros acc Ha Hl; simpl;
    [constructor | ].
  inversion Hl as [ | ? ? Hx Hl']; subst.
  constructor; [now apply zero_or_nan_fadd | ].
  apply IH; [now apply zero_or_nan_fadd | exact Hl'].
Qed.

Lemma np_cumsum_zero_or_nan (l : list npfloat) :
  Forall zero_or_nan l -> Forall zero_or_nan (np_cumsum l).
Proof.
  destruct l as [ | x l]; intro H; simpl; [constructor | ].
  inversion H as [ | ? ? Hx Hl]; subst.
  constructor; [exact Hx | now apply cumsum_from_zero_or_nan].
Qed.

Lemma cumsum_from_length (acc : npfloat) (l : list npfloat) :
  length (cumsum_from acc l) = length l.
Proof.
  revert acc. induction l as [ | x l IH]; intro acc; simpl;
    [reflexivity | now rewrite IH].
Qed.

Lemma np_cumsum_length (l : list npfloat) :
  length (np_cumsum l) = length l.
Proof.
  destruct l as [ | x l]; simpl; [reflexivity | now rewrite cumsum_from_length].
Qed.

(** The array [cum_W] of an empty distribution holds zeros and [nan]s
    only, whatever the widths and diameters are. *)
Lemma cum_W_all_zero (self : DropSizeDistribution) (N ds : list npfloat) :
  Forall (fun x => x = Fin 0) N ->
  length (spread self) = length N ->
  diameter self = Some ds -> length ds = length N ->
  exists cw,
    cum_W self N = Ok cw /\ length cw = length N /\ Forall zero_or_nan cw.
Proof.
  intros HN Ls Hd Ld. unfold cum_W. rewrite Hd.
  set (g := fun k => fmul (fmul (nth k N NaN) (nth k (spread self) NaN))
                          (np_power (nth k ds NaN) (Fin 3))).
  rewrite (map_result_all_ok _ g).
  - cbn [rbind]. eexists. split; [reflexivity | ]. split.
    + rewrite length_map, np_cumsum_length, length_map, length_seq.
      reflexivity.
    + apply Forall_map. apply Forall_forall. intros x Hx.
      apply zero_or_nan_fmul_r. revert x Hx. apply Forall_forall.
      apply np_cumsum_zero_or_nan. apply Forall_map. apply Forall_forall.
      intros k Hk. apply in_seq in Hk. unfold g.
      apply zero_or_nan_fmul_l, zero_or_nan_fmul_l.
      assert (E : nth k N NaN = Fin 0).
      { rewrite Forall_forall in HN. apply HN. apply nth_In. lia. }
      rewrite E. reflexivity.
  - intros k Hk. apply in_seq in Hk.
    rewrite (py_index_nat _ NaN) by lia.
    rewrite (py_index_nat _ NaN) by lia.
    cbn [rbind not_none].
    rewrite (py_index_nat _ NaN) by lia. reflexivity.
Qed.

Lemma py_index_zero {A} (l : list A) (d : A) :
  l <> [] -> py_index l 0 = Ok (nth 0 l d).
Proof.
  intro H. apply (py_index_nat l (k := 0) d).
  destruct l; simpl; [congruence | lia].
Qed.

Lemma _calculate_D0_all_zero (self : DropSizeDistribution)
    (N ds : list npfloat) :
  N <> [] -> Forall (fun x => x = Fin 0) N ->
  length (spread self) = length N ->
  diameter self = Some ds -> length ds = length N ->
  _calculate_D0 self N = Ok NaN.
Proof.
  intros Hne HN Ls Hd Ld.
  destruct (cum_W_all_zero self HN Ls Hd Ld) as [cw [E [Lc Hz]]].
  assert (Hcw : cw <> []).
  { intro E0. subst cw. destruct N; simpl in Lc; [congruence | lia]. }
  assert (Hds : ds <> []).
  { intro E0. subst ds. destruct N; simpl in Ld; [congruence | lia]. }
  assert (Hnth : forall j, zero_or_nan (nth j cw (Fin 0))).
  { intro j. destruct (Nat.lt_ge_cases j (length cw)) as [Hj | Hj].
    - rewrite Forall_forall in Hz. apply Hz. now apply nth_In.
    - rewrite nth_overflow by exact Hj. reflexivity. }
  unfold _calculate_D0. rewrite E. cbn [rbind].
  rewrite (py_index_last (Fin 0) Hcw). cbn [rbind].
  set (last := nth (length cw - 1) cw (Fin 0)).
  assert (Hlast : zero_or_nan last) by apply Hnth.
  assert (Ek : index_false (map (fun x => fltb x (fmul last (Fin 0.5))) cw)
               = Ok 0%nat).
  { destruct cw as [ | c cw']; [congruence | ]. simpl.
    rewrite fltb_zero_or_nan; [reflexivity | apply (Hnth 0%nat) | ].
    now apply zero_or_nan_fmul_l. }
  rewrite Ek. cbn [rbind].
  change (Z.of_nat 0 - 1 + 1)%Z with 0%Z.
  change (Z.of_nat 0 - 1)%Z with (-1)%Z.
  rewrite (py_index_zero (Fin 0) Hcw), (py_index_last (Fin 0) Hcw).
  rewrite Hd. cbn [rbind not_none].
  rewrite (py_index_zero NaN Hds), (py_index_last NaN Hds). cbn [rbind].
  fold last. f_equal.
  rewrite fdiv_zero_or_nan.
  - apply fadd_nan_r.
  - apply zero_or_nan_fsub; [now apply zero_or_nan_fmul_r | exact Hlast].
  - apply zero_or_nan_fdiv_l. apply zero_or_nan_fsub; [apply Hnth | exact Hlast].
Qed.

Lemma nonzero_from_all_zero (k : nat) (N : list npfloat) :
  Forall (fun x => x = Fin 0) N -> nonzero_from k N = [].
Proof.
  revert k. induction N as [ | x N IH]; intros k H; simpl; [reflexivity | ].
  inversion H as [ | ? ? Hx HN]; subst. simpl.
  rewrite Reqb_true by reflexivity. simpl. now apply IH.
Qed.

Lemma __get_last_nonzero_all_zero (N : list npfloat) :
  Forall (fun x => x = Fin 0) N -> __get_last_nonzero N = Raise ValueError.
Proof.
  intro H. unfold __get_last_nonzero, np_nonzero.
  rewrite nonzero_from_all_zero by exact H. reflexivity.
Qed.

End MedianVolumeDiameter.

(** ** The rain rate: [calculate_RR] *)

Section RainRate.

Lemma for_each_invariant {X} (f : DropSizeDistribution -> X)
    (body : nat -> M unit) :
  (forall t s, f (fst (body t s)) = f s) ->
  forall ts s, f (fst (for_each ts body s)) = f s.
Proof.
  intros Hbody ts. induction ts as [ | t ts IH]; intro s; simpl;
    [reflexivity | ].
  unfold mbind. specialize (Hbody t s).
  destruct (body t s) as [s' [[] | e]]; simpl in *.
  - rewrite IH. exact Hbody.
  - exact Hbody.
Qed.

(** One pass of the loop of [calculate_RR] writes [rain_rate] only. *)
Lemma rain_rate_at_frame (t : nat) (s : DropSizeDistribution) :
  exists r,
    (fst (rain_rate_at t s) = s \/
     fst (rain_rate_at t s) = set_rain_rate r s).
Proof.
  unfold rain_rate_at, setitem_attr, mbind, get, lift, modify.
  destruct (not_none (diameter s)) as [ds | e];
    [ | exists None; left; reflexivity].
  destruct (np_setitem (map fall_velocity ds) 0 (Fin 0.5)) as [vel | e];
    [ | exists None; left; reflexivity].
  destruct (py_index (Nd s) (Z.of_nat t)) as [Nd_t | e];
    [ | exists None; left; reflexivity].
  destruct (_mmultiply _) as [prod | e]; [ | exists None; left; reflexivity].
  destruct (getattr (rain_rate s)) as [a | e];
    [ | exists None; left; reflexivity].
  destruct (np_setitem a t _) as [a' | e];
    [ | exists None; left; reflexivity].
  exists (Some a'). right. reflexivity.
Qed.

Lemma calculate_RR_frame (s : DropSizeDistribution) :
  derived_fields (fst (calculate_RR s)) = derived_fields s.
Proof.
  unfold calculate_RR, mbind, get, modify, for_range.
  cbv beta iota.
  rewrite (for_each_invariant derived_fields); [reflexivity | ].
  intros t s0. destruct (rain_rate_at_frame t s0) as [r [-> | ->]];
    reflexivity.
Qed.

(** The velocities after [velocity[0] = 0.5]. *)
Lemma velocity_override (ds : list npfloat) :
  (1 <= length ds)%nat ->
  exists vel,
    np_setitem (map fall_velocity ds) 0 (Fin 0.5) = Ok vel /\
    length vel = length ds /\
    forall i, (i < length ds)%nat -> nth i vel NaN = Spec.v ds i.
Proof.
  intro H. destruct ds as [ | d0 ds']; simpl in H; [lia | ].
  exists (Fin 0.5 :: map fall_velocity ds').
  split; [reflexivity | ].
  split; [cbn [length]; now rewrite length_map | ].
  intros [ | i] Hi; [reflexivity | ]. cbn [length] in Hi. cbn [nth Spec.v].
  rewrite (@nth_map_lt _ _ fall_velocity ds' i NaN NaN) by lia.
  reflexivity.
Qed.

(** The product that [_mmultiply] returns for one time step. *)
Lemma _mmultiply_terms (vel row sp d3 : list npfloat) (n : nat) :
  length vel = n -> length row = n -> length sp = n -> length d3 = n ->
  _mmultiply [vel; row; sp; d3]
  = Ok (map (fun i => fmul (fmul (fmul (nth i vel NaN) (nth i row NaN))
                                 (nth i sp NaN))
                           (nth i d3 NaN))
            (seq 0 n)).
Proof.
  intros Lv Lr Ls Ld. unfold _mmultiply. cbn [fold_left rbind].
  assert (L1 : length (np_ones (length vel)) = n)
    by (unfold np_ones; rewrite repeat_length; exact Lv).
  unfold np_multiply.
  rewrite np_binop_same_length by congruence. cbn [rbind].
  rewrite np_binop_same_length by (rewrite !zip_with_length_min; lia).
  cbn [rbind].
  rewrite np_binop_same_length by (rewrite !zip_with_length_min; lia).
  cbn [rbind].
  rewrite np_binop_same_length by (rewrite !zip_with_length_min; lia).
  f_equal. apply (nth_ext _ _ NaN NaN).
  - rewrite !zip_with_length_min, length_map, length_seq. lia.
  - intros i Hi. rewrite !zip_with_length_min in Hi.
    rewrite (@nth_map_seq _ _ n i NaN) by lia.
    rewrite (@zip_with_nth _ _ _ fmul _ _ i NaN NaN NaN)
      by (rewrite ?zip_with_length_min; lia).
    rewrite (@zip_with_nth _ _ _ fmul _ _ i NaN NaN NaN)
      by (rewrite ?zip_with_length_min; lia).
    rewrite (@zip_with_nth _ _ _ fmul _ _ i NaN NaN NaN)
      by (rewrite ?zip_with_length_min; lia).
    rewrite (@zip_with_nth _ _ _ fmul _ _ i NaN NaN NaN) by lia.
    unfold np_ones.
    rewrite (nth_indep _ NaN (Fin 1)) by (rewrite repeat_length; lia).
    rewrite nth_repeat, fmul_1_l. reflexivity.
Qed.

Lemma np_setitem_middle {A} (l1 l2 : list A) (x v : A) :
  np_setitem (l1 ++ x :: l2) (length l1) v = Ok (l1 ++ v :: l2).
Proof.
  induction l1 as [ | y l1 IH]; simpl; [reflexivity | ].
  rewrite IH. reflexivity.
Qed.

(** One pass of the loop of [calculate_RR] on an object that satisfies
    the length invariants: it stores the rain rate of the specification
    into [rain_rate[t]]. *)
Lemma rain_rate_at_step (self : DropSizeDistribution) (ds acc : list npfloat)
    (t : nat) :
  diameter self = Some ds -> (1 <= length ds)%nat ->
  length (spread self) = length ds ->
  (t < length (Nd self))%nat ->
  (forall row, In row (Nd self) -> length row = length ds) ->
  rain_rate_at t (set_rain_rate (Some acc) self)
  = match np_setitem acc t
            (Spec.rain_rate ds (spread self) (nth t (Nd self) [])) with
    | Ok acc' => (set_rain_rate (Some acc') self, Ok tt)
    | Raise e => (set_rain_rate (Some acc) self, Raise e)
    end.
Proof.
  intros Hd Hn Ls Ht Hrows.
  unfold rain_rate_at, setitem_attr, mbind, get, lift, modify.
  cbn [diameter Nd spread rain_rate set_rain_rate].
  rewrite Hd. cbn [not_none].
  destruct (velocity_override ds Hn) as [vel [Ev [Lv Hv]]].
  rewrite Ev. rewrite (py_index_nat _ []) by exact Ht.
  assert (Lrow : length (nth t (Nd self) []) = length ds)
    by (apply Hrows, nth_In, Ht).
  rewrite (@_mmultiply_terms vel (nth t (Nd self) []) (spread self)
             (map (fun x => np_power x (Fin 3)) ds) (length ds))
    by (rewrite ?length_map; first [assumption | reflexivity]).
  cbn [getattr].
  assert (Ev' :
    fmul (fmul (fmul (Fin 0.6) np_pi) (Fin 1e-03))
      (np_sum
         (map (fun i =>
                 fmul (fmul (fmul (nth i vel NaN)
                                  (nth i (nth t (Nd self) []) NaN))
                            (nth i (spread self) NaN))
                      (nth i (map (fun x => np_power x (Fin 3)) ds) NaN))
              (seq 0 (length ds))))
    = Spec.rain_rate ds (spread self) (nth t (Nd self) [])).
  { unfold Spec.rain_rate, Spec.fsum_below, np_sum, np_pi.
    replace (Fin 1e-03) with (Fin 1e-3) by (f_equal; lra).
    f_equal. f_equal. apply map_ext_in. intros i Hi. apply in_seq in Hi.
    rewrite Hv by lia.
    rewrite (@nth_map_lt _ _ (fun x => np_power x (Fin 3)) ds i NaN NaN)
      by lia.
    reflexivity. }
  rewrite Ev'.
  destruct (np_setitem acc t _) as [acc' | e]; reflexivity.
Qed.

Lemma calculate_RR_loop (self : DropSizeDistribution) (ds : list npfloat)
    (value : nat -> npfloat) :
  diameter self = Some ds -> (1 <= length ds)%nat ->
  length (spread self) = length ds ->
  (forall row, In row (Nd self) -> length row = length ds) ->
  (forall t, value t = Spec.rain_rate ds (spread self) (nth t (Nd self) [])) ->
  forall m j, (j + m <= length (Nd self))%nat ->
    for_each (seq j m) rain_rate_at
      (set_rain_rate (Some (map value (seq 0 j) ++ np_zeros m)) self)
    = (set_rain_rate (Some (map value (seq 0 (j + m)))) self, Ok tt).
Proof.
  intros Hd Hn Ls Hrows Hval. induction m as [ | m IH]; intros j Hj.
  - simpl. rewrite app_nil_r, Nat.add_0_r. reflexivity.
  - cbn [seq for_each]. unfold mbind.
    rewrite (@rain_rate_at_step self ds _ j Hd Hn Ls) by (assumption || lia).
    rewrite <- Hval.
    replace j with (length (map value (seq 0 j))) at 2
      by (rewrite length_map, length_seq; reflexivity).
    change (np_zeros (S m)) with (Fin 0 :: np_zeros m).
    rewrite np_setitem_middle.
    replace (map value (seq 0 j) ++ value j :: np_zeros m)
      with (map value (seq 0 (S j)) ++ np_zeros m).
    + rewrite IH by lia. rewrite Nat.add_succ_r. reflexivity.
    + rewrite seq_S, map_app, <- app_assoc. reflexivity.
Qed.

End RainRate.

(** ** The relationship fits *)

Section Fits.

(** Indexing with a boolean mask keeps the entries at the rows where the
    mask holds, in order. *)
Lemma mask_rows (a : list npfloat) (mask : list bool) :
  length a = length mask ->
  map fst (filter snd (combine a mask))
  = Spec.rows_of a (filter (fun t => nth t mask false) (seq 0 (length a))).
Proof.
  revert mask. induction a as [ | x a IH]; intros [ | b mask] H;
    simpl in H; try discriminate; [reflexivity | ].
  injection H as H. unfold Spec.rows_of in *.
  assert (Etail :
    map (fun t => nth t (x :: a) NaN)
        (filter (fun t => nth t (b :: mask) false) (seq 1 (length a)))
    = map fst (filter snd (combine a mask))).
  { rewrite <- seq_shift, filter_map_swap, map_map. rewrite (IH mask H).
    reflexivity. }
  cbn [combine length seq filter snd].
  change (nth 0 (b :: mask) false) with b.
  destruct b; cbn [map fst]; rewrite Etail; reflexivity.
Qed.

Lemma np_mask_rows (a : list npfloat) (mask : list bool) :
  length a = length mask ->
  np_mask a mask
  = Ok (Spec.rows_of a (filter (fun t => nth t mask false)
                               (seq 0 (length a)))).
Proof.
  intro H. unfold np_mask. rewrite H, Nat.eqb_refl. f_equal.
  rewrite <- H. now apply mask_rows.
Qed.

Lemma gt0_length (a : list npfloat) : length (gt0 a) = length a.
Proof. unfold gt0. apply length_map. Qed.

Lemma gt0_nth (a : list npfloat) (t : nat) :
  nth t (gt0 a) false = fgtb (nth t a NaN) (Fin 0).
Proof.
  unfold gt0. change false with (fgtb NaN (Fin 0)) at 1.
  apply (map_nth (fun x => fgtb x (Fin 0))).
Qed.

Lemma np_logical_and_same_length (a b : list bool) :
  length a = length b -> np_logical_and a b = Ok (zip_with andb a b).
Proof. intro H. unfold np_logical_and. now rewrite H, Nat.eqb_refl. Qed.

Lemma zip_with_andb_nth (a b : list bool) (t : nat) :
  length a = length b ->
  nth t (zip_with andb a b) false = nth t a false && nth t b false.
Proof.
  intro H. destruct (Nat.lt_ge_cases t (length a)) as [Ht | Ht].
  - apply zip_with_nth; lia.
  - rewrite !nth_overflow; rewrite ?zip_with_length_min; try lia;
      reflexivity.
Qed.

(** The filter of the three two-predictor fits selects the rows where
    [rain_rate], [Zdr] and [Kdp] are all positive. *)
Lemma joint_filter_rows (self : DropSizeDistribution) (rr : list npfloat)
    (T : nat) :
  length rr = T -> length (Zdr self) = T -> length (Kdp self) = T ->
  exists filt,
    joint_filter self rr = Ok filt /\ length filt = T /\
    filter (fun t => nth t filt false) (seq 0 T)
    = Spec.joint_rows [rr; Zdr self; Kdp self] T.
Proof.
  intros Lr Lz Lk. unfold joint_filter.
  rewrite np_logical_and_same_length by (rewrite !gt0_length; congruence).
  cbn [rbind].
  rewrite np_logical_and_same_length
    by (rewrite zip_with_length_min, !gt0_length; lia).
  eexists. split; [reflexivity | ]. split.
  - rewrite !zip_with_length_min, !gt0_length. lia.
  - unfold Spec.joint_rows. apply filter_ext. intro t.
    rewrite zip_with_andb_nth
      by (rewrite zip_with_length_min, !gt0_length; lia).
    rewrite zip_with_andb_nth by (rewrite !gt0_length; congruence).
    rewrite !gt0_nth. cbn [forallb]. rewrite andb_true_r, andb_assoc.
    reflexivity.
Qed.

Lemma db_to_linear_finite (x : R) :
  db_to_linear (Fin x) = Fin (Rpower 10 (0.1 * x)).
Proof.
  unfold db_to_linear. cbn [fmul np_power]. unfold pow_finite.
  rewrite (@Rltb_true 0 10) by lra.
  destruct (Reqb (0.1 * x) 0) eqn:E; [ | reflexivity].
  apply Reqb_eq in E. rewrite E. unfold Rpower. rewrite Rmult_0_l, exp_0.
  reflexivity.
Qed.

End Fits.

(** C10.  Two runs of [calc_dsd_parameterization] on the same object that
    differ only in the [method] argument leave the same [Nt], [W], [D0],
    [Nw], [Dmax] and [Dm], and end the same way. *)
Theorem method_argument_has_no_influence
    (self : DropSizeDistribution) (method1 method2 : string) :
  let run1 := calc_dsd_parameterization method1 self in
  let run2 := calc_dsd_parameterization method2 self in
  Nt (fst run1) = Nt (fst run2) /\ W (fst run1) = W (fst run2) /\
  D0 (fst run1) = D0 (fst run2) /\ Nw (fst run1) = Nw (fst run2) /\
  Dmax (fst run1) = Dmax (fst run2) /\ Dm (fst run1) = Dm (fst run2) /\
  run1 = run2.
Proof.
  intros run1 run2. unfold run1, run2, calc_dsd_parameterization.
  repeat split; reflexivity.
Qed.

(** The same on an object with one time step and one empty bin: both
    calls return there. *)
Lemma Dm_is_quotient_of_moments_witness :
  let run := calc_dsd_parameterization "bringi" OneBin.dsd in
  snd run <> Raise ZeroDivisionError /\
  exists dm,
    Dm (fst run) = Some dm /\ length dm = length (time OneBin.dsd) /\
    forall t, (t < length (time OneBin.dsd))%nat ->
      nth t dm NaN = fdiv (nth t (OneBin.moment_of (Fin 4)) NaN)
                          (nth t (OneBin.moment_of (Fin 3)) NaN) /\
      (nth t (OneBin.moment_of (Fin 3)) NaN = Fin 0 -> nth t dm NaN = NaN).
Proof.
  apply (@Dm_is_quotient_of_moments OneBin.dsd "bringi"
           (OneBin.moment_of (Fin 4)) (OneBin.moment_of (Fin 3)));
    reflexivity.
Defined.

(** C9 (the claim fails on the code).  Right after construction the six
    DSD parameters are not attributes of the object. *)
Lemma dsd_parameters_absent_after_init :
  let s := Scenario.dsd in
  let T := length (time s) in
  ~ (Nt s = Some (np_zeros T) /\ W s = Some (np_zeros T) /\
     D0 s = Some (np_zeros T) /\ Nw s = Some (np_zeros T) /\
     Dmax s = Some (np_zeros T) /\ Dm s = Some (np_zeros T)).
Proof. intros s T [H _]. discriminate H. Qed.

(** C9, as amended.  Right after construction [Zh], [Zdr], [Kdp] and [Ai]
    are zero-filled arrays as long as [time], and [Nt], [W], [D0], [Nw],
    [Dmax] and [Dm] do not exist.  [calc_dsd_parameterization] creates
    these six, zero-filled and as long as [time], when it starts; when it
    returns or raises each of them is an array as long as [time], and the
    four radar arrays are as before.  [calculate_RR] changes none of the
    ten. *)
Theorem derived_fields_lifecycle
    (time0 : list npfloat) (Nd0 : list (list npfloat))
    (spread0 : list npfloat)
    (rain_rate0 velocity0 Z0 num_particles0 bin_edges0 diameter0
       : option (list npfloat)) :
  let s := __init__ time0 Nd0 spread0 rain_rate0 velocity0 Z0
             num_particles0 bin_edges0 diameter0 in
  let T := length time0 in
  (Zh s = np_zeros T /\ Zdr s = np_zeros T /\
   Kdp s = np_zeros T /\ Ai s = np_zeros T) /\
  (Nt s = None /\ W s = None /\ D0 s = None /\
   Nw s = None /\ Dmax s = None /\ Dm s = None) /\
  forall (self : DropSizeDistribution),
    let z := Some (np_zeros (length (time self))) in
    let s0 := alloc_dsd_parameters self in
    (Nt s0 = z /\ W s0 = z /\ D0 s0 = z /\ Nw s0 = z /\ Dmax s0 = z /\
     Dm s0 = z) /\
    (forall method,
       let s' := fst (calc_dsd_parameterization method self) in
       let n := length (time self) in
       (is_array n (Nt s') /\ is_array n (W s') /\ is_array n (D0 s') /\
        is_array n (Nw s') /\ is_array n (Dmax s') /\ is_array n (Dm s')) /\
       (Zh s' = Zh self /\ Zdr s' = Zdr self /\ Kdp s' = Kdp self /\
        Ai s' = Ai self)) /\
    derived_fields (fst (calculate_RR self)) = derived_fields self.
Proof.
  intros s T. split; [repeat split | ]. split; [repeat split | ].
  intros self z s0. split; [repeat split | ]. split; [ | apply calculate_RR_frame].
  intros method s' n.
  assert (Hz : is_array n (Some (np_zeros n))).
  { exists (np_zeros n). split; [reflexivity | apply repeat_length]. }
  destruct (_calc_mth_moment self (Fin 4)) as [m4 | e] eqn:E4.
  2:{ unfold s'. rewrite (@calc_dsd_when_a_moment_raises self method e)
        by (left; exact E4).
      repeat split; exact Hz. }
  destruct (_calc_mth_moment self (Fin 3)) as [m3 | e] eqn:E3.
  2:{ unfold s'. rewrite (@calc_dsd_when_a_moment_raises self method e)
        by (right; exists m4; split; assumption).
      repeat split; exact Hz. }
  destruct (calc_dsd_when_moments_return self method E4 E3)
    as [s1 [r [E [_ Hs]]]].
  assert (Hdm : is_array n (Some (zip_with fdiv m4 m3))).
  { eexists. split; [reflexivity | ].
    rewrite zip_with_length;
      rewrite ?(_calc_mth_moment_length _ _ E4),
              ?(_calc_mth_moment_length _ _ E3); reflexivity. }
  unfold s'. rewrite E. simpl fst.
  destruct Hs as [-> | [a' [La ->]]].
  - repeat split; try exact Hz; exact Hdm.
  - repeat split; try exact Hz; try exact Hdm.
    exists a'. split; [reflexivity | exact La].
Qed.


Lemma two_bins_crossing (c : R) :
  0 < c ->
  Spec.half_mass_crossing c TwoBins.counts TwoBins.widths TwoBins.diam 1.
Proof.
  intro Hc.
  unfold Spec.half_mass_crossing, Spec.cumW, Spec.water_term,
    TwoBins.counts, TwoBins.widths, TwoBins.diam.
  simpl. split; [lia | ]. split; [lra | ].
  intros j Hj. replace j with 0%nat by lia. simpl. lra.
Qed.


(** The value on that object: [1 + (4.5 - 1) / ((9 - 1) / (2 - 1))]. *)
Example calculate_D0_two_bins :
  _calculate_D0 TwoBins.dsd (map Fin TwoBins.counts) = Ok (Fin 1.4375).
Proof.
  assert (Hc : 0 < 1e-3 * PI / 6) by (pose proof PI_RGT_0; lra).
  rewrite (@_calculate_D0_finite TwoBins.dsd TwoBins.counts TwoBins.widths
             TwoBins.diam 1); try reflexivity.
  - f_equal.
    unfold Spec.cumW, Spec.water_term, TwoBins.counts, TwoBins.widths,
      TwoBins.diam.
    cbn [Spec.sum_upto nth length Nat.sub].
    rewrite interpolate_regular by lra. f_equal.
    rewrite (@quotient_value _ _ 0.4375); lra.
  - apply two_bins_crossing. exact Hc.
Qed.

Lemma first_bin_crossing (w : R) :
  0 < w ->
  Spec.half_mass_crossing w FirstBin.counts FirstBin.widths FirstBin.diam 0 /\
  Spec.half_mass_crossing w FirstBin.counts FirstBin.widths
    FirstBin.diam_wide 0.
Proof.
  intro Hw.
  unfold Spec.half_mass_crossing, Spec.cumW, Spec.water_term,
    FirstBin.counts, FirstBin.widths, FirstBin.diam, FirstBin.diam_wide.
  simpl. split; (split; [lia | ]; split; [lra | intros j Hj; lia]).
Qed.

(** C3 (the code departs from the claim).  With the half-mass crossing in
    the first bin, [cross_pt] is [-1] and [_calculate_D0] reads the
    entries of the last bin.  On three bins with diameters 1, 2 and 3 it
    returns 0, a diameter below every bin, without any flag; and when
    only the diameter of the empty last bin is changed to 5, it returns
    -1. *)
Theorem first_bin_crossing_reads_last_bin :
  Spec.half_mass_crossing (1e-3 * PI / 6) FirstBin.counts FirstBin.widths
    FirstBin.diam 0 /\
  _calculate_D0 FirstBin.dsd (map Fin FirstBin.counts) = Ok (Fin 0) /\
  _calculate_D0 FirstBin.dsd_wide (map Fin FirstBin.counts) = Ok (Fin (-1)).
Proof.
  assert (Hw : 0 < 1e-3 * PI / 6) by (pose proof PI_RGT_0; lra).
  destruct (first_bin_crossing Hw) as [H1 H2].
  split; [exact H1 | ]. split.
  - rewrite (@_calculate_D0_finite FirstBin.dsd FirstBin.counts
               FirstBin.widths FirstBin.diam 0); try reflexivity;
      [ | exact H1].
    f_equal.
    unfold Spec.cumW, Spec.water_term, FirstBin.counts, FirstBin.widths,
      FirstBin.diam.
    cbn [Spec.sum_upto nth length Nat.sub].
    rewrite interpolate_regular by lra. f_equal.
    rewrite (@quotient_value _ _ (-3)); lra.
  - rewrite (@_calculate_D0_finite FirstBin.dsd_wide FirstBin.counts
               FirstBin.widths FirstBin.diam_wide 0); try reflexivity;
      [ | exact H2].
    f_equal.
    unfold Spec.cumW, Spec.water_term, FirstBin.counts, FirstBin.widths,
      FirstBin.diam_wide.
    cbn [Spec.sum_upto nth length Nat.sub].
    rewrite interpolate_regular by lra. f_equal.
    rewrite (@quotient_value _ _ (-6)); lra.
Qed.

(** On two bins of one drop each the cumulative curve that
    [_calculate_D0] works on is not the curve scaled by
    [1e-2 * pi / 6 * rho_w]. *)
Lemma D0_curve_is_not_scaled_by_vol_constant :
  vol_constant = Fin (1e-2 * PI / 6 * 1) /\
  cum_W TwoBins.dsd (map Fin TwoBins.counts)
  <> Ok (map (fun k => Fin (Spec.cumW (1e-2 * PI / 6 * 1) TwoBins.counts
                              TwoBins.widths TwoBins.diam k))
             (seq 0 (length TwoBins.counts))).
Proof.
  split; [apply vol_constant_value | ].
  rewrite (@cum_W_finite TwoBins.dsd TwoBins.counts TwoBins.widths
             TwoBins.diam); try reflexivity.
  intro H. injection H as H0 _.
  unfold Spec.cumW, Spec.water_term, TwoBins.counts, TwoBins.widths,
    TwoBins.diam in H0.
  cbn [Spec.sum_upto nth] in H0.
  pose proof PI_RGT_0. lra.
Qed.

(** The two constants: [vol_constant = 1e-2 * pi / 6 * rho_w] with
    [rho_w = 1] in [calc_dsd_parameterization], and
    [W_const = 1e-3 * pi / 6], a tenth of it, in [_calculate_D0], whose
    curve is [cum_W[k] = (1e-3 * pi / 6) * sum_(j <= k) Nd[t,j] *
    spread_j * diameter_j^3]. *)
Theorem water_content_constants (self : DropSizeDistribution)
    (N sp d : list R) :
  spread self = map Fin sp -> diameter self = Some (map Fin d) ->
  length sp = length N -> length d = length N ->
  vol_constant = Fin (1e-2 * PI / 6 * 1) /\
  rho_w = Fin 1 /\
  cum_W self (map Fin N)
  = Ok (map (fun k => Fin (Spec.cumW (1e-3 * PI / 6) N sp d k))
            (seq 0 (length N))) /\
  vol_constant = fmul (Fin 10) W_const /\
  W_const <> vol_constant.
Proof.
  intros Hs Hd Ls Ld.
  split; [apply vol_constant_value | ]. split; [reflexivity | ].
  split; [apply cum_W_finite; assumption | ].
  rewrite vol_constant_value, W_const_value. cbn [fmul]. split.
  - f_equal. lra.
  - intro H. injection H as H. pose proof PI_RGT_0. lra.
Qed.

(** The same on two bins of one drop each. *)
Lemma water_content_constants_witness :
  vol_constant = Fin (1e-2 * PI / 6 * 1) /\
  rho_w = Fin 1 /\
  cum_W TwoBins.dsd (map Fin TwoBins.counts)
  = Ok (map (fun k => Fin (Spec.cumW (1e-3 * PI / 6) TwoBins.counts
                             TwoBins.widths TwoBins.diam k))
            (seq 0 (length TwoBins.counts))) /\
  vol_constant = fmul (Fin 10) W_const /\
  W_const <> vol_constant.
Proof.
  apply (@water_content_constants TwoBins.dsd TwoBins.counts TwoBins.widths
           TwoBins.diam); reflexivity.
Defined.

(** C2 (the claim fails on the code).  For a time step without drops the
    computation behind [Dmax] raises. *)
Lemma Dmax_raises_on_empty_time_step :
  __get_last_nonzero Empty.counts = Raise ValueError.
Proof.
  apply __get_last_nonzero_all_zero. repeat constructor.
Qed.

(** C2, as amended.  For a time step whose distribution is entirely zero,
    on at least one bin, [_calculate_D0] returns [nan] and does not raise,
    whereas the computation behind [Dmax], [__get_last_nonzero], raises
    [ValueError]. *)
Theorem empty_time_step (self : DropSizeDistribution) (N ds : list npfloat) :
  N <> [] -> Forall (fun x => x = Fin 0) N ->
  length (spread self) = length N ->
  diameter self = Some ds -> length ds = length N ->
  _calculate_D0 self N = Ok NaN /\
  __get_last_nonzero N = Raise ValueError.
Proof.
  intros Hne HN Ls Hd Ld. split.
  - now apply _calculate_D0_all_zero with (ds := ds).
  - now apply __get_last_nonzero_all_zero.
Qed.

(** C2, on the bins of the scenario without drops. *)
Lemma empty_time_step_witness :
  _calculate_D0 Scenario.dsd Empty.counts = Ok NaN /\
  __get_last_nonzero Empty.counts = Raise ValueError.
Proof.
  apply (@empty_time_step Scenario.dsd Empty.counts Scenario.diam).
  - discriminate.
  - repeat constructor.
  - reflexivity.
  - reflexivity.
  - reflexivity.
Defined.

(** C5.  On an object that satisfies the length invariants and has at
    least one bin, [calculate_RR] returns and leaves
    [rain_rate[t] = 0.6*pi*1e-3 * sum_i v_i * Nd[t,i] * spread_i *
    diameter_i^3] for every time step, with [v_0 = 0.5] and
    [v_i = 9.65 - 10.3*exp(-0.6*diameter_i)] for the other bins; the
    object after the call is the same whatever [rain_rate] held
    before. *)
Theorem calculate_RR_formula (self : DropSizeDistribution)
    (ds : list npfloat) :
  diameter self = Some ds -> (1 <= length ds)%nat ->
  length (spread self) = length ds ->
  length (Nd self) = length (time self) ->
  (forall row, In row (Nd self) -> length row = length ds) ->
  let rates :=
    map (fun t => Spec.rain_rate ds (spread self) (nth t (Nd self) []))
        (seq 0 (length (time self))) in
  calculate_RR self = (set_rain_rate (Some rates) self, Ok tt) /\
  forall previous,
    calculate_RR (set_rain_rate previous self) = calculate_RR self.
Proof.
  intros Hd Hn Ls LN Hrows rates.
  assert (H : forall previous,
             calculate_RR (set_rain_rate previous self)
             = (set_rain_rate (Some rates) self, Ok tt)).
  { intro previous. unfold calculate_RR, mbind, get, modify, for_range.
    cbn [time set_rain_rate].
    pose proof (@calculate_RR_loop self ds
                  (fun t => Spec.rain_rate ds (spread self)
                              (nth t (Nd self) []))
                  Hd Hn Ls Hrows (fun t => eq_refl)
                  (length (time self)) 0%nat) as Hloop.
    cbn [seq map app Nat.add] in Hloop.
    exact (Hloop ltac:(lia)). }
  split.
  - rewrite <- (H (rain_rate self)). destruct self; reflexivity.
  - intro previous. rewrite H. rewrite <- (H (rain_rate self)).
    destruct self; reflexivity.
Qed.

(** C5, on the scenario of the specification. *)
Lemma calculate_RR_formula_witness :
  let rates :=
    map (fun t => Spec.rain_rate Scenario.diam (spread Scenario.dsd)
                    (nth t (Nd Scenario.dsd) []))
        (seq 0 (length (time Scenario.dsd))) in
  calculate_RR Scenario.dsd = (set_rain_rate (Some rates) Scenario.dsd, Ok tt)
  /\
  forall previous,
    calculate_RR (set_rain_rate previous Scenario.dsd)
    = calculate_RR Scenario.dsd.
Proof.
  apply (@calculate_RR_formula Scenario.dsd Scenario.diam);
    try reflexivity.
  - simpl. lia.
  - intros row [<- | []]. reflexivity.
Defined.

(** C4.  With [rain_rate] and the radar arrays as long as [time], each of
    the five fits passes to the fitting routine exactly the rows where all
    its filters are strictly positive, with the values as they are:
    [Kdp > 0] and [rain_rate > 0] for [calc_R_kdp_relationship],
    [rain_rate > 0] for [calc_R_Zh_relationship], and [rain_rate > 0],
    [Zdr > 0] and [Kdp > 0] for the three two-predictor fits.  [Zh] and
    [Zdr] are converted with [10^(0.1*x)]; [Kdp] is passed as it is. *)
Theorem fits_use_jointly_positive_rows (fit : Type)
    (expfit : list npfloat -> list npfloat -> result fit)
    (expfit2 : list (list npfloat) -> list npfloat -> result fit)
    (self : DropSizeDistribution) (rr : list npfloat) :
  rain_rate self = Some rr ->
  length rr = length (time self) ->
  length (Kdp self) = length (time self) ->
  length (Zh self) = length (time self) ->
  length (Zdr self) = length (time self) ->
  let T := length (time self) in
  let kdp_rows := Spec.joint_rows [Kdp self; rr] T in
  let zh_rows := Spec.joint_rows [rr] T in
  let rows := Spec.joint_rows [rr; Zdr self; Kdp self] T in
  let linear := map db_to_linear in
  calc_R_kdp_relationship expfit self
  = expfit (Spec.rows_of (Kdp self) kdp_rows) (Spec.rows_of rr kdp_rows) /\
  calc_R_Zh_relationship expfit self
  = expfit (linear (Spec.rows_of (Zh self) zh_rows))
           (Spec.rows_of rr zh_rows) /\
  calc_R_Zh_Zdr_relationship expfit2 self
  = expfit2 [linear (Spec.rows_of (Zh self) rows);
             linear (Spec.rows_of (Zdr self) rows)]
            (Spec.rows_of rr rows) /\
  calc_R_Zh_Kdp_relationship expfit2 self
  = expfit2 [linear (Spec.rows_of (Zh self) rows);
             Spec.rows_of (Kdp self) rows]
            (Spec.rows_of rr rows) /\
  calc_R_Zdr_Kdp_relationship expfit2 self
  = expfit2 [linear (Spec.rows_of (Zdr self) rows);
             Spec.rows_of (Kdp self) rows]
            (Spec.rows_of rr rows) /\
  forall x, db_to_linear (Fin x) = Fin (Rpower 10 (0.1 * x)).
Proof.
  intros Hrr Lr Lk Lh Lz T kdp_rows zh_rows rows linear.
  destruct (@joint_filter_rows self rr T Lr Lz Lk) as [filt [Ef [Lf Hf]]].
  fold rows in Hf. change (length filt = length (time self)) in Lf.
  assert (Hk : filter (fun t => nth t (zip_with andb (gt0 (Kdp self)) (gt0 rr))
                                  false) (seq 0 T) = kdp_rows).
  { unfold kdp_rows, Spec.joint_rows. apply filter_ext. intro t.
    rewrite zip_with_andb_nth by (rewrite !gt0_length; congruence).
    rewrite !gt0_nth. cbn [forallb]. now rewrite andb_true_r. }
  assert (Hz : filter (fun t => nth t (gt0 rr) false) (seq 0 T) = zh_rows).
  { unfold zh_rows, Spec.joint_rows. apply filter_ext. intro t.
    rewrite gt0_nth. cbn [forallb]. now rewrite andb_true_r. }
  repeat split.
  - unfold calc_R_kdp_relationship. rewrite Hrr. cbn [not_none rbind].
    rewrite np_logical_and_same_length by (rewrite !gt0_length; congruence).
    cbn [rbind].
    rewrite !np_mask_rows
      by (rewrite zip_with_length_min, !gt0_length; lia).
    cbn [rbind]. rewrite Lk, Lr. fold T. rewrite Hk. reflexivity.
  - unfold calc_R_Zh_relationship. rewrite Hrr. cbn [not_none rbind].
    rewrite !np_mask_rows by (rewrite gt0_length; congruence).
    cbn [rbind]. rewrite Lh, Lr. fold T. rewrite Hz. reflexivity.
  - unfold calc_R_Zh_Zdr_relationship. rewrite Hrr. cbn [not_none rbind].
    rewrite Ef. cbn [rbind]. rewrite !np_mask_rows by congruence.
    cbn [rbind]. rewrite Lh, Lz, Lr. fold T. rewrite Hf. reflexivity.
  - unfold calc_R_Zh_Kdp_relationship. rewrite Hrr. cbn [not_none rbind].
    rewrite Ef. cbn [rbind]. rewrite !np_mask_rows by congruence.
    cbn [rbind]. rewrite Lh, Lk, Lr. fold T. rewrite Hf. reflexivity.
  - unfold calc_R_Zdr_Kdp_relationship. rewrite Hrr. cbn [not_none rbind].
    rewrite Ef. cbn [rbind]. rewrite !np_mask_rows by congruence.
    cbn [rbind]. rewrite Lz, Lk, Lr. fold T. rewrite Hf. reflexivity.
  - apply db_to_linear_finite.
Qed.

(** C4, on three time steps of which the first only has a positive
    [Kdp], [Zdr] and rain rate. *)
Lemma fits_use_jointly_positive_rows_witness :
  let self := Fitted.dsd in
  let rr := [Fin 3; Fin 4; Fin 5] in
  let T := length (time self) in
  let kdp_rows := Spec.joint_rows [Kdp self; rr] T in
  let zh_rows := Spec.joint_rows [rr] T in
  let rows := Spec.joint_rows [rr; Zdr self; Kdp self] T in
  let linear := map db_to_linear in
  calc_R_kdp_relationship Fitted.count_rows self
  = Fitted.count_rows (Spec.rows_of (Kdp self) kdp_rows)
      (Spec.rows_of rr kdp_rows) /\
  calc_R_Zh_relationship Fitted.count_rows self
  = Fitted.count_rows (linear (Spec.rows_of (Zh self) zh_rows))
      (Spec.rows_of rr zh_rows) /\
  calc_R_Zh_Zdr_relationship Fitted.count_rows2 self
  = Fitted.count_rows2 [linear (Spec.rows_of (Zh self) rows);
                        linear (Spec.rows_of (Zdr self) rows)]
      (Spec.rows_of rr rows) /\
  calc_R_Zh_Kdp_relationship Fitted.count_rows2 self
  = Fitted.count_rows2 [linear (Spec.rows_of (Zh self) rows);
                        Spec.rows_of (Kdp self) rows]
      (Spec.rows_of rr rows) /\
  calc_R_Zdr_Kdp_relationship Fitted.count_rows2 self
  = Fitted.count_rows2 [linear (Spec.rows_of (Zdr self) rows);
                        Spec.rows_of (Kdp self) rows]
      (Spec.rows_of rr rows) /\
  forall x, db_to_linear (Fin x) = Fin (Rpower 10 (0.1 * x)).
Proof.
  apply (@fits_use_jointly_positive_rows nat Fitted.count_rows
           Fitted.count_rows2 Fitted.dsd [Fin 3; Fin 4; Fin 5]);
    reflexivity.
Defined.

(** ** Further properties of the methods *)

(** *** [calc_dsd_parameterization] *)

(** On one bin, one row of [Nd] and two bin edges [_calc_mth_moment]
    returns, with the one product in every entry. *)
Lemma moment_on_one_bin (self : DropSizeDistribution)
    (e0 e1 d0 n0 m : npfloat) :
  bin_edges self = Some [e0; e1] -> diameter self = Some [d0] ->
  Nd self = [[n0]] ->
  _calc_mth_moment self m
  = Ok (repeat (fmul (fmul (np_power d0 m) n0) (fsub e1 e0))
               (length (time self))).
Proof.
  intros He Hd HN.
  assert (E : exists r, _calc_mth_moment self m = Ok r).
  { unfold _calc_mth_moment. rewrite He, Hd, HN. cbn [not_none rbind].
    cbn [bin_widths map].
    assert (G : forall ts acc,
               (forall t, In t ts -> (t < length acc)%nat) ->
               exists r,
                 fill_each ts acc
                   (fun _ : nat =>
                      d <- Ok [d0] ;;
                      a <- np_multiply_1d_2d
                             (map (fun x => np_power x m) d) [[n0]] ;;
                      b <- np_multiply_2d_1d a [fsub e1 e0] ;;
                      as_scalar b) = Ok r).
    { induction ts as [ | t ts IH]; intros acc Hin; [now eexists | ].
      cbn [fill_each]. cbn [rbind map].
      unfold np_multiply_1d_2d, np_multiply_2d_1d, np_multiply, np_binop,
        zip_with.
      cbn [rectangular forallb map_result length Nat.eqb combine map rbind
           fst snd as_scalar].
      destruct (np_setitem_in_range acc
                  (fmul (fmul (np_power d0 m) n0) (fsub e1 e0))
                  (Hin t (or_introl eq_refl))) as [acc' Ea].
      rewrite Ea. cbn [rbind].
      apply IH. intros u Hu.
      rewrite (np_setitem_length _ _ _ Ea). apply Hin. now right. }
    apply G. intros t Ht. apply in_seq in Ht. unfold np_zeros.
    rewrite repeat_length. lia. }
  destruct E as [r E]. rewrite E. f_equal.
  pose proof (_calc_mth_moment_length _ _ E) as L.
  set (v := fmul (fmul (np_power d0 m) n0) (fsub e1 e0)).
  apply (nth_ext _ _ NaN v); [now rewrite repeat_length | ].
  intros t Ht. rewrite L in Ht. rewrite nth_repeat. unfold v.
  destruct (_calc_mth_moment_returns _ _ E)
    as [edges [d0' [n0' [b0 [He' [Hb [Hd' [HN' Hv]]]]]]]]; [lia | ].
  rewrite He in He'. injection He' as <-.
  rewrite Hd in Hd'. injection Hd' as <-.
  rewrite HN in HN'. injection HN' as <-.
  cbn [bin_widths] in Hb. injection Hb as <-. apply Hv. exact Ht.
Qed.

(** The object after the first pass of the loop on one row of one bin
    with one width: [Nt[0]] is stored, then the unbound name [array] is
    reached. *)
Lemma first_pass_one_bin (s : DropSizeDistribution) (n0 s0 : npfloat)
    (nt : list npfloat) :
  Nd s = [[n0]] -> spread s = [s0] -> Nt s = Some nt -> nt <> [] ->
  dsd_parameters_at 0 s
  = (set_Nt (Some (fmul s0 n0 :: tl nt)) s, Raise NameError).
Proof.
  intros HN Hs Hnt Hne.
  unfold dsd_parameters_at, setitem_attr, mbind, get, lift, modify.
  rewrite HN, Hs. change (py_index [[n0]] (Z.of_nat 0)) with (Ok [n0]).
  unfold np_dot, np_sum, zip_with. cbn [length Nat.eqb combine map fold_left
                                        fst snd].
  rewrite fadd_0_l. rewrite Hnt. cbn [getattr].
  destruct nt as [ | x nt']; [congruence | ].
  cbn [np_setitem tl]. reflexivity.
Qed.

Lemma calc_dsd_raises_with_time_steps (self : DropSizeDistribution)
    (method : string) :
  (1 <= length (time self))%nat ->
  exists s' e,
    calc_dsd_parameterization method self = (s', Raise e) /\
    (s' = alloc_dsd_parameters self \/
     exists dm, s' = set_Dm (Some dm) (alloc_dsd_parameters self) \/
                exists a', s' = set_Nt (Some a')
                                  (set_Dm (Some dm)
                                     (alloc_dsd_parameters self))).
Proof.
  intro HT.
  destruct (_calc_mth_moment self (Fin 4)) as [m4 | e] eqn:E4.
  2:{ exists (alloc_dsd_parameters self), e. split; [ | now left].
      apply calc_dsd_when_a_moment_raises. now left. }
  destruct (_calc_mth_moment self (Fin 3)) as [m3 | e] eqn:E3.
  2:{ exists (alloc_dsd_parameters self), e. split; [ | now left].
      apply calc_dsd_when_a_moment_raises. right. now exists m4. }
  unfold calc_dsd_parameterization, mbind, modify, get, lift.
  cbv beta iota. rewrite !_calc_mth_moment_alloc, E4, E3.
  unfold np_divide. rewrite np_binop_same_length.
  2:{ rewrite (_calc_mth_moment_length _ _ E4).
      rewrite (_calc_mth_moment_length _ _ E3). reflexivity. }
  change (time (alloc_dsd_parameters self)) with (time self).
  destruct (dsd_loop_outcome (length (time self))
              (set_Dm (Some (zip_with fdiv m4 m3)) (alloc_dsd_parameters self)))
    as [[H0 _] | [_ [s' [e [E [_ Hs]]]]]]; [lia | ].
  rewrite E. exists s', e. split; [reflexivity | ]. right.
  exists (zip_with fdiv m4 m3).
  destruct Hs as [-> | [a [a' [_ [_ ->]]]]]; [now left | right].
  now exists a'.
Qed.

(** On an object with at least one time step [calc_dsd_parameterization]
    never returns: it raises, and [W], [D0], [Nw] and [Dmax] are left as
    the zero-filled arrays it created. *)
Theorem parameterization_never_completes (self : DropSizeDistribution)
    (method : string) :
  (1 <= length (time self))%nat ->
  let run := calc_dsd_parameterization method self in
  let z := Some (np_zeros (length (time self))) in
  (exists e, snd run = Raise e) /\
  W (fst run) = z /\ D0 (fst run) = z /\ Nw (fst run) = z /\
  Dmax (fst run) = z.
Proof.
  intros HT run z.
  destruct (calc_dsd_raises_with_time_steps self method HT)
    as [s' [e [E Hs]]].
  unfold run. rewrite E. cbn [fst snd]. split; [now exists e | ].
  destruct Hs as [-> | [dm [-> | [a' ->]]]]; repeat split; reflexivity.
Qed.

Lemma parameterization_never_completes_witness :
  let run := calc_dsd_parameterization "bringi" Scenario.dsd in
  let z := Some (np_zeros (length (time Scenario.dsd))) in
  (exists e, snd run = Raise e) /\
  W (fst run) = z /\ D0 (fst run) = z /\ Nw (fst run) = z /\
  Dmax (fst run) = z.
Proof.
  apply (@parameterization_never_completes Scenario.dsd "bringi").
  simpl. lia.
Defined.

(** On an object with one bin, one row of [Nd] and one width, on which
    both moments are returned, [calc_dsd_parameterization] stops in the
    first pass of its loop with [NameError]: [Nt[0] = spread[0]*Nd[0,0]]
    has been stored and [Dm] holds the quotient of the moments. *)
Theorem parameterization_stops_at_unbound_name
    (self : DropSizeDistribution) (method : string)
    (e0 e1 d0 n0 s0 : npfloat) :
  bin_edges self = Some [e0; e1] -> diameter self = Some [d0] ->
  Nd self = [[n0]] -> spread self = [s0] ->
  (1 <= length (time self))%nat ->
  let run := calc_dsd_parameterization method self in
  let moment m := fmul (fmul (np_power d0 m) n0) (fsub e1 e0) in
  snd run = Raise NameError /\
  Nt (fst run)
  = Some (fmul s0 n0 :: np_zeros (length (time self) - 1)) /\
  exists dm,
    Dm (fst run) = Some dm /\ length dm = length (time self) /\
    forall t, (t < length (time self))%nat ->
      nth t dm NaN = fdiv (moment (Fin 4)) (moment (Fin 3)).
Proof.
  intros He Hd HN Hs HT run moment.
  pose proof (moment_on_one_bin self (Fin 4) He Hd HN) as E4.
  pose proof (moment_on_one_bin self (Fin 3) He Hd HN) as E3.
  fold (moment (Fin 4)) in E4. fold (moment (Fin 3)) in E3.
  set (m4 := repeat (moment (Fin 4)) (length (time self))) in E4.
  set (m3 := repeat (moment (Fin 3)) (length (time self))) in E3.
  assert (L4 : length m4 = length (time self)) by apply repeat_length.
  assert (L3 : length m3 = length (time self)) by apply repeat_length.
  assert (V4 : forall t, (t < length (time self))%nat ->
                 nth t m4 NaN = moment (Fin 4)).
  { intros t Ht. unfold m4.
    rewrite (nth_indep _ NaN (moment (Fin 4)))
      by (rewrite repeat_length; exact Ht).
    apply nth_repeat. }
  assert (V3 : forall t, (t < length (time self))%nat ->
                 nth t m3 NaN = moment (Fin 3)).
  { intros t Ht. unfold m3.
    rewrite (nth_indep _ NaN (moment (Fin 3)))
      by (rewrite repeat_length; exact Ht).
    apply nth_repeat. }
  assert (Erun : run
    = (set_Nt (Some (fmul s0 n0 :: np_zeros (length (time self) - 1)))
         (set_Dm (Some (zip_with fdiv m4 m3)) (alloc_dsd_parameters self)),
       Raise NameError)).
  { unfold run, calc_dsd_parameterization, mbind, modify, get, lift.
    cbv beta iota. rewrite !_calc_mth_moment_alloc, E4, E3.
    unfold np_divide. rewrite np_binop_same_length by congruence.
    change (time (alloc_dsd_parameters self)) with (time self).
    destruct (length (time self)) as [ | T] eqn:ET; [lia | ].
    unfold for_range. cbn [seq for_each]. unfold mbind.
    rewrite (@first_pass_one_bin _ n0 s0 (np_zeros (S T))).
    - cbn [np_zeros repeat tl]. replace (S T - 1)%nat with T by lia.
      reflexivity.
    - exact HN.
    - exact Hs.
    - cbn [Nt set_Dm alloc_dsd_parameters set_Dmax set_Nw set_D0 set_W set_Nt].
      rewrite ET. reflexivity.
    - discriminate. }
  rewrite Erun. cbn [fst snd]. split; [reflexivity | ].
  split; [reflexivity | ].
  exists (zip_with fdiv m4 m3). split; [reflexivity | ].
  split; [rewrite zip_with_length; congruence | ].
  intros t Ht.
  rewrite (@zip_with_nth _ _ _ fdiv m4 m3 t NaN NaN NaN) by lia.
  rewrite V4, V3 by exact Ht. reflexivity.
Qed.

Lemma parameterization_stops_at_unbound_name_witness :
  let self := OneBin.dsd in
  let run := calc_dsd_parameterization "bringi" self in
  let moment m := fmul (fmul (np_power (Fin 0.5) m) (Fin 0))
                       (fsub (Fin 1) (Fin 0)) in
  snd run = Raise NameError /\
  Nt (fst run)
  = Some (fmul (Fin 1) (Fin 0) :: np_zeros (length (time self) - 1)) /\
  exists dm,
    Dm (fst run) = Some dm /\ length dm = length (time self) /\
    forall t, (t < length (time self))%nat ->
      nth t dm NaN = fdiv (moment (Fin 4)) (moment (Fin 3)).
Proof.
  apply (@parameterization_stops_at_unbound_name OneBin.dsd "bringi"
           (Fin 0) (Fin 1) (Fin 0.5) (Fin 0) (Fin 1)); reflexivity.
Defined.

(** Without time steps [calc_dsd_parameterization] returns, with six
    empty parameter arrays, whatever the other attributes hold, as long as
    [bin_edges] was given; with [bin_edges] left at [None] it raises
    [TypeError]. *)
Theorem parameterization_without_time_steps (self : DropSizeDistribution)
    (method : string) :
  length (time self) = 0%nat ->
  let run := calc_dsd_parameterization method self in
  (bin_edges self <> None ->
   snd run = Ok tt /\
   Nt (fst run) = Some [] /\ W (fst run) = Some [] /\
   D0 (fst run) = Some [] /\ Nw (fst run) = Some [] /\
   Dmax (fst run) = Some [] /\ Dm (fst run) = Some []) /\
  (bin_edges self = None -> snd run = Raise TypeError).
Proof.
  intros HT run.
  assert (Em : forall m,
             _calc_mth_moment self m
             = match bin_edges self with
               | Some _ => Ok []
               | None => Raise TypeError
               end).
  { intro m. unfold _calc_mth_moment. rewrite HT.
    destruct (bin_edges self); reflexivity. }
  split.
  - intro He. destruct (bin_edges self) as [edges | ] eqn:E; [ | congruence].
    destruct (calc_dsd_when_moments_return self method (Em (Fin 4)) (Em (Fin 3)))
      as [s' [r [Erun [_ Hs]]]].
    assert (Er : run = (set_Dm (Some []) (alloc_dsd_parameters self), Ok tt)).
    { unfold run, calc_dsd_parameterization, mbind, modify, get, lift.
      cbv beta iota. rewrite !_calc_mth_moment_alloc, !Em.
      change (time (alloc_dsd_parameters self)) with (time self).
      rewrite HT. reflexivity. }
    rewrite Er. cbn [fst snd Nt W D0 Nw Dmax Dm set_Dm set_Dmax set_Nw set_D0
                     set_W set_Nt alloc_dsd_parameters].
    rewrite HT. repeat split; reflexivity.
  - intro He. unfold run.
    rewrite (@calc_dsd_when_a_moment_raises self method TypeError);
      [reflexivity | ].
    left. rewrite Em, He. reflexivity.
Qed.

Lemma parameterization_without_time_steps_witness :
  let self := __init__ [] [] [] None None None None (Some [Fin 0]) None in
  let run := calc_dsd_parameterization "bringi" self in
  (bin_edges self <> None ->
   snd run = Ok tt /\
   Nt (fst run) = Some [] /\ W (fst run) = Some [] /\
   D0 (fst run) = Some [] /\ Nw (fst run) = Some [] /\
   Dmax (fst run) = Some [] /\ Dm (fst run) = Some []) /\
  (bin_edges self = None -> snd run = Raise TypeError).
Proof.
  apply (@parameterization_without_time_steps
           (__init__ [] [] [] None None None None (Some [Fin 0]) None)
           "bringi").
  reflexivity.
Defined.

Lemma alloc_set_Nt (a : option (list npfloat)) (s : DropSizeDistribution) :
  alloc_dsd_parameters (set_Nt a s) = alloc_dsd_parameters s.
Proof. reflexivity. Qed.

Lemma alloc_set_Dm (a : option (list npfloat)) (s : DropSizeDistribution) :
  alloc_dsd_parameters (set_Dm a s) = alloc_dsd_parameters s.
Proof. reflexivity. Qed.

Lemma alloc_alloc (s : DropSizeDistribution) :
  alloc_dsd_parameters (alloc_dsd_parameters s) = alloc_dsd_parameters s.
Proof. reflexivity. Qed.

Lemma alloc_after_run (self : DropSizeDistribution) (method : string) :
  alloc_dsd_parameters (fst (calc_dsd_parameterization method self))
  = alloc_dsd_parameters self.
Proof.
  destruct (_calc_mth_moment self (Fin 4)) as [m4 | e] eqn:E4.
  2:{ rewrite (@calc_dsd_when_a_moment_raises self method e) by (now left).
      apply alloc_alloc. }
  destruct (_calc_mth_moment self (Fin 3)) as [m3 | e] eqn:E3.
  2:{ rewrite (@calc_dsd_when_a_moment_raises self method e)
        by (right; now exists m4).
      apply alloc_alloc. }
  destruct (calc_dsd_when_moments_return self method E4 E3)
    as [s' [r [E [_ Hs]]]].
  rewrite E. cbn [fst].
  destruct Hs as [-> | [a' [_ ->]]];
    rewrite ?alloc_set_Nt, alloc_set_Dm; apply alloc_alloc.
Qed.

(** Running [calc_dsd_parameterization] a second time changes nothing:
    the object and the outcome are those of the first run. *)
Theorem parameterization_idempotent (self : DropSizeDistribution)
    (method : string) :
  calc_dsd_parameterization method
    (fst (calc_dsd_parameterization method self))
  = calc_dsd_parameterization method self.
Proof.
  pose proof (alloc_after_run self method) as H.
  set (s' := fst (calc_dsd_parameterization method self)) in *.
  unfold calc_dsd_parameterization, mbind, modify.
  cbv beta iota. rewrite H. reflexivity.
Qed.

(** *** [_calc_mth_moment] *)

Lemma bin_widths_singleton (edges : list npfloat) (b : npfloat) :
  bin_widths edges = [b] -> exists e0 e1, edges = [e0; e1] /\ b = fsub e1 e0.
Proof.
  destruct edges as [ | e0 [ | e1 [ | e2 rest]]]; simpl; intro H;
    try discriminate.
  injection H as <-. now exists e0, e1.
Qed.

(** On an object with at least one time step [_calc_mth_moment] returns
    exactly when there are one bin, two bin edges and one row of [Nd];
    every entry of the result is then
    [diameter[0]^m * Nd[0,0] * (bin_edges[1] - bin_edges[0])], and
    [spread] is not read. *)
Theorem moment_returns_exactly_on_one_bin (self : DropSizeDistribution)
    (m : npfloat) (r : list npfloat) :
  (1 <= length (time self))%nat ->
  _calc_mth_moment self m = Ok r <->
  exists e0 e1 d0 n0,
    bin_edges self = Some [e0; e1] /\ diameter self = Some [d0] /\
    Nd self = [[n0]] /\
    r = repeat (fmul (fmul (np_power d0 m) n0) (fsub e1 e0))
               (length (time self)).
Proof.
  intro HT. split.
  - intro E.
    destruct (_calc_mth_moment_returns _ _ E HT)
      as [edges [d0 [n0 [b0 [He [Hb [Hd [HN _]]]]]]]].
    destruct (bin_widths_singleton _ Hb) as [e0 [e1 [-> ->]]].
    exists e0, e1, d0, n0. repeat (split; [assumption | ]).
    rewrite (moment_on_one_bin self m He Hd HN) in E. now injection E.
  - intros [e0 [e1 [d0 [n0 [He [Hd [HN ->]]]]]]].
    now apply moment_on_one_bin.
Qed.

Lemma moment_returns_exactly_on_one_bin_witness :
  _calc_mth_moment OneBin.dsd (Fin 3) = Ok (OneBin.moment_of (Fin 3)) <->
  exists e0 e1 d0 n0,
    bin_edges OneBin.dsd = Some [e0; e1] /\
    diameter OneBin.dsd = Some [d0] /\
    Nd OneBin.dsd = [[n0]] /\
    OneBin.moment_of (Fin 3)
    = repeat (fmul (fmul (np_power d0 (Fin 3)) n0) (fsub e1 e0))
             (length (time OneBin.dsd)).
Proof.
  apply (@moment_returns_exactly_on_one_bin OneBin.dsd (Fin 3)
           (OneBin.moment_of (Fin 3))).
  simpl. lia.
Defined.

(** *** [__get_last_nonzero] *)

Lemma nonzero_from_ge (k : nat) (l : list npfloat) (j : nat) :
  In j (nonzero_from k l) -> (k <= j)%nat.
Proof.
  revert k. induction l as [ | x l IH]; intros k H; simpl in H; [easy | ].
  destruct (fnonzero x).
  - destruct H as [<- | H]; [lia | ]. apply IH in H. lia.
  - apply IH in H. lia.
Qed.

Lemma fnonzero_zero : fnonzero (Fin 0) = false.
Proof. simpl. now rewrite Reqb_true. Qed.

(** The largest index, computed from the left. *)
Lemma last_nonzero_cons (x : npfloat) (l : list npfloat) (k : nat) :
  np_max_index (nonzero_from k (x :: l))
  = match np_max_index (nonzero_from (S k) l) with
    | Ok i => Ok i
    | Raise _ => if fnonzero x then Ok k else Raise ValueError
    end.
Proof.
  cbn [nonzero_from].
  destruct (nonzero_from (S k) l) as [ | r0 rs] eqn:E.
  - destruct (fnonzero x); reflexivity.
  - destruct (fnonzero x); [ | reflexivity].
    cbn [np_max_index fold_left].
    assert (S k <= r0)%nat
      by (apply (@nonzero_from_ge (S k) l); rewrite E; now left).
    now rewrite Nat.max_r by lia.
Qed.

Lemma last_nonzero_from (l : list npfloat) (k : nat) :
  match np_max_index (nonzero_from k l) with
  | Ok i =>
      (k <= i < k + length l)%nat /\
      fnonzero (nth (i - k) l (Fin 0)) = true /\
      forall j, (i < j)%nat -> fnonzero (nth (j - k) l (Fin 0)) = false
  | Raise e =>
      e = ValueError /\ forall j, fnonzero (nth j l (Fin 0)) = false
  end.
Proof.
  revert k. induction l as [ | x l IH]; intro k.
  - cbn. split; [reflexivity | ]. intros [ | j]; apply fnonzero_zero.
  - rewrite last_nonzero_cons. specialize (IH (S k)).
    destruct (np_max_index (nonzero_from (S k) l)) as [i | e].
    + destruct IH as [Hi [Hnz Hafter]]. cbn [length]. split; [lia | ].
      replace (i - k)%nat with (S (i - S k)) by lia. cbn [nth].
      split; [exact Hnz | ]. intros j Hj.
      replace (j - k)%nat with (S (j - S k)) by lia. cbn [nth].
      now apply Hafter.
    + destruct IH as [_ Hall]. destruct (fnonzero x) eqn:Ex.
      * cbn [length]. split; [lia | ]. rewrite Nat.sub_diag. cbn [nth].
        split; [exact Ex | ]. intros j Hj.
        replace (j - k)%nat with (S (j - S k)) by lia. cbn [nth]. apply Hall.
      * split; [reflexivity | ]. intros [ | j]; cbn [nth]; [exact Ex | ].
        apply Hall.
Qed.

(** [__get_last_nonzero] returns the index of the last entry that is not
    zero, and raises [ValueError] exactly when every entry is zero. *)
Theorem last_nonzero_index (N : list npfloat) :
  (forall i,
     __get_last_nonzero N = Ok i <->
     (i < length N)%nat /\ fnonzero (nth i N (Fin 0)) = true /\
     forall j, (i < j)%nat -> fnonzero (nth j N (Fin 0)) = false) /\
  (__get_last_nonzero N = Raise ValueError <->
   forall j, fnonzero (nth j N (Fin 0)) = false) /\
  (forall e, __get_last_nonzero N = Raise e -> e = ValueError).
Proof.
  unfold __get_last_nonzero, np_nonzero.
  pose proof (last_nonzero_from N 0) as H.
  destruct (np_max_index (nonzero_from 0 N)) as [i0 | e0].
  - destruct H as [Hi [Hnz Hafter]]. rewrite Nat.sub_0_r in Hnz.
    assert (Hafter' : forall j, (i0 < j)%nat ->
                        fnonzero (nth j N (Fin 0)) = false).
    { intros j Hj. specialize (Hafter j Hj). now rewrite Nat.sub_0_r in Hafter. }
    split; [ | split].
    + intro i. split.
      * intro E. injection E as <-. split; [lia | ]. now split.
      * intros [Hi' [Hnz' Hafter'']]. f_equal.
        destruct (Nat.lt_trichotomy i0 i) as [Hlt | [Heq | Hgt]];
          [ | exact Heq | ].
        -- rewrite (Hafter' i Hlt) in Hnz'. discriminate.
        -- rewrite (Hafter'' i0 Hgt) in Hnz. discriminate.
    + split; [discriminate | ]. intro Hall. rewrite Hall in Hnz. discriminate.
    + intros e E. discriminate.
  - destruct H as [-> Hall]. split; [ | split].
    + intro i. split; [discriminate | ].
      intros [_ [Hnz _]]. rewrite Hall in Hnz. discriminate.
    + split; [intros _; exact Hall | reflexivity].
    + intros e E. now injection E.
Qed.

(** *** [_calculate_D0] *)

Lemma smallest_index (P : nat -> Prop) (dec : forall j, {P j} + {~ P j})
    (n : nat) :
  (exists k, (k < n)%nat /\ P k /\ forall j, (j < k)%nat -> ~ P j) \/
  (forall j, (j < n)%nat -> ~ P j).
Proof.
  induction n as [ | n [IH | IH]].
  - right. intros j Hj. lia.
  - left. destruct IH as [k [Hk H]]. exists k. split; [lia | exact H].
  - destruct (dec n) as [Hn | Hn].
    + left. exists n. split; [lia | ]. split; assumption.
    + right. intros j Hj. destruct (Nat.eq_dec j n) as [-> | Hne];
        [exact Hn | apply IH; lia].
Qed.

Lemma sum_upto_nonneg (f : nat -> R) (k : nat) :
  (forall j, 0 <= f j) -> 0 <= Spec.sum_upto f k.
Proof.
  intro H. induction k as [ | k IH]; simpl; [apply H | ].
  pose proof (H (S k)). lra.
Qed.

Lemma nth_nonneg (l : list R) (j : nat) :
  Forall (fun x => 0 <= x) l -> 0 <= nth j l 0.
Proof.
  intro H. destruct (Nat.lt_ge_cases j (length l)) as [Hj | Hj].
  - rewrite Forall_forall in H. apply H. now apply nth_In.
  - rewrite nth_overflow by exact Hj. lra.
Qed.

Lemma water_term_nonneg (N sp d : list R) (j : nat) :
  Forall (fun x => 0 <= x) N -> Forall (fun x => 0 <= x) sp ->
  Forall (fun x => 0 <= x) d ->
  0 <= Spec.water_term N sp d j.
Proof.
  intros HN Hs Hd. unfold Spec.water_term.
  pose proof (nth_nonneg j HN). pose proof (nth_nonneg j Hs).
  pose proof (nth_nonneg j Hd).
  apply Rmult_le_pos; [now apply Rmult_le_pos | ].
  apply pow_le. assumption.
Qed.

(** With a non-negative total the half-mass crossing bin exists. *)
Lemma crossing_exists (w : R) (N sp d : list R) :
  0 < w -> N <> [] ->
  0 <= Spec.sum_upto (Spec.water_term N sp d) (length N - 1) ->
  exists k, Spec.half_mass_crossing w N sp d k.
Proof.
  intros Hw Hne Hpos.
  assert (Hlen : (0 < length N)%nat)
    by (destruct N; simpl; [congruence | lia]).
  unfold Spec.half_mass_crossing.
  set (cw := Spec.cumW w N sp d).
  destruct (smallest_index
              (fun j => cw j >= 0.5 * cw (length N - 1)%nat)
              (fun j => Rge_dec (cw j) (0.5 * cw (length N - 1)%nat))
              (length N)) as [[k [Hk H]] | Hnone].
  - exists k. split; assumption.
  - exfalso. apply (Hnone (length N - 1)%nat); [lia | ].
    unfold cw, Spec.cumW. nra.
Qed.

(** On finite bins with non-negative concentrations, widths and
    diameters, and at least one bin, [_calculate_D0] does not raise: the
    half-mass crossing bin exists and a value is returned. *)
Theorem D0_returns_on_nonnegative_bins (self : DropSizeDistribution)
    (N sp d : list R) :
  spread self = map Fin sp -> diameter self = Some (map Fin d) ->
  length sp = length N -> length d = length N -> N <> [] ->
  Forall (fun x => 0 <= x) N -> Forall (fun x => 0 <= x) sp ->
  Forall (fun x => 0 <= x) d ->
  exists k v,
    Spec.half_mass_crossing (1e-3 * PI / 6) N sp d k /\
    _calculate_D0 self (map Fin N) = Ok v.
Proof.
  intros Hs Hd Ls Ld Hne HN Hsp Hdi.
  assert (Hw : 0 < 1e-3 * PI / 6) by (pose proof PI_RGT_0; lra).
  destruct (@crossing_exists (1e-3 * PI / 6) N sp d Hw Hne) as [k Hk].
  { apply sum_upto_nonneg. intro j. now apply water_term_nonneg. }
  exists k. eexists. split; [exact Hk | ].
  apply (@_calculate_D0_finite self N sp d k Hs Hd Ls Ld Hk).
Qed.

Lemma D0_returns_on_nonnegative_bins_witness :
  exists k v,
    Spec.half_mass_crossing (1e-3 * PI / 6) FirstBin.counts FirstBin.widths
      FirstBin.diam k /\
    _calculate_D0 FirstBin.dsd (map Fin FirstBin.counts) = Ok v.
Proof.
  apply (@D0_returns_on_nonnegative_bins FirstBin.dsd FirstBin.counts
           FirstBin.widths FirstBin.diam); try reflexivity.
  - discriminate.
  - unfold FirstBin.counts. repeat constructor; lra.
  - unfold FirstBin.widths. repeat constructor; lra.
  - unfold FirstBin.diam. repeat constructor; lra.
Defined.

(** When the crossing bin [k] lies beyond the first bin and its diameter
    is larger than that of the bin before it, the value returned lies
    between the two diameters: above [diameter[k-1]] and at most
    [diameter[k]]. *)
Theorem D0_lies_between_the_diameters (self : DropSizeDistribution)
    (N sp d : list R) (k : nat) :
  spread self = map Fin sp -> diameter self = Some (map Fin d) ->
  length sp = length N -> length d = length N ->
  Spec.half_mass_crossing (1e-3 * PI / 6) N sp d k -> (1 <= k)%nat ->
  nth (k - 1) d 0 < nth k d 0 ->
  exists x,
    _calculate_D0 self (map Fin N) = Ok (Fin x) /\
    nth (k - 1) d 0 < x <= nth k d 0.
Proof.
  intros Hs Hd Ls Ld Hcross Hk Hdd.
  rewrite (@_calculate_D0_finite self N sp d k Hs Hd Ls Ld Hcross).
  destruct Hcross as [_ [Hge Hlt]].
  destruct k as [ | k']; [lia | ].
  replace (S k' - 1)%nat with k' in * by lia.
  specialize (Hlt k' (Nat.lt_succ_diag_r k')).
  set (cw := Spec.cumW (1e-3 * PI / 6) N sp d) in *.
  set (h := 0.5 * cw (length N - 1)%nat) in *.
  set (c0 := cw k') in *. set (c1 := cw (S k')) in *.
  set (d0 := nth k' d 0) in *. set (d1 := nth (S k') d 0) in *.
  rewrite interpolate_regular by lra.
  eexists. split; [reflexivity | ].
  set (q := (h - c0) / (c1 - c0)).
  assert (Eq : q * (c1 - c0) = h - c0) by (unfold q; field; lra).
  assert (Hq : 0 < q <= 1) by (split; nra).
  replace ((h - c0) / ((c1 - c0) / (d1 - d0))) with (q * (d1 - d0))
    by (unfold q; field; split; lra).
  split; nra.
Qed.

Lemma D0_lies_between_the_diameters_witness :
  exists x,
    _calculate_D0 TwoBins.dsd (map Fin TwoBins.counts) = Ok (Fin x) /\
    nth (1 - 1) TwoBins.diam 0 < x <= nth 1 TwoBins.diam 0.
Proof.
  assert (Hw : 0 < 1e-3 * PI / 6) by (pose proof PI_RGT_0; lra).
  apply (@D0_lies_between_the_diameters TwoBins.dsd TwoBins.counts
           TwoBins.widths TwoBins.diam 1); try reflexivity.
  - apply two_bins_crossing. exact Hw.
  - simpl. lra.
Defined.

Lemma sum_upto_ext (f g : nat -> R) (k : nat) :
  (forall j, f j = g j) -> Spec.sum_upto f k = Spec.sum_upto g k.
Proof.
  intro H. induction k as [ | k IH]; simpl; [apply H | ].
  now rewrite IH, H.
Qed.

Lemma sum_upto_scale (c : R) (f : nat -> R) (k : nat) :
  Spec.sum_upto (fun j => c * f j) k = c * Spec.sum_upto f k.
Proof.
  induction k as [ | k IH]; simpl; [reflexivity | ]. rewrite IH. ring.
Qed.

Lemma water_term_scale (c : R) (N sp d : list R) (j : nat) :
  Spec.water_term (map (Rmult c) N) sp d j = c * Spec.water_term N sp d j.
Proof.
  unfold Spec.water_term.
  assert (E : nth j (map (Rmult c) N) 0 = c * nth j N 0).
  { destruct (Nat.lt_ge_cases j (length N)) as [Hj | Hj].
    - apply (@nth_map_lt _ _ (Rmult c) N j 0 0 Hj).
    - rewrite !nth_overflow by (rewrite ?length_map; exact Hj). ring. }
  rewrite E. ring.
Qed.

Lemma sum_upto_water_scale (c : R) (N sp d : list R) (k : nat) :
  Spec.sum_upto (Spec.water_term (map (Rmult c) N) sp d) k
  = c * Spec.sum_upto (Spec.water_term N sp d) k.
Proof.
  rewrite (sum_upto_ext _ (fun j => c * Spec.water_term N sp d j))
    by (intro j; apply water_term_scale).
  apply sum_upto_scale.
Qed.

Lemma cumW_scale (w c : R) (N sp d : list R) (k : nat) :
  Spec.cumW w (map (Rmult c) N) sp d k = c * Spec.cumW w N sp d k.
Proof. unfold Spec.cumW. rewrite sum_upto_water_scale. ring. Qed.

(** The value returned, in terms of the unscaled cumulative sums. *)
Lemma _calculate_D0_unscaled (self : DropSizeDistribution) (N sp d : list R)
    (k : nat) :
  spread self = map Fin sp -> diameter self = Some (map Fin d) ->
  length sp = length N -> length d = length N ->
  Spec.half_mass_crossing (1e-3 * PI / 6) N sp d k ->
  let S_ := Spec.sum_upto (Spec.water_term N sp d) in
  let before := match k with O => (length N - 1)%nat | S k' => k' end in
  _calculate_D0 self (map Fin N)
  = Ok (Spec.interpolate (S_ before) (S_ k) (0.5 * S_ (length N - 1)%nat)
          (nth before d 0) (nth k d 0)).
Proof.
  intros Hs Hd Ls Ld Hk S_ before.
  assert (Hw : 0 < 1e-3 * PI / 6) by (pose proof PI_RGT_0; lra).
  rewrite (@_calculate_D0_finite self N sp d k Hs Hd Ls Ld Hk).
  fold before. unfold Spec.cumW. fold S_.
  replace (0.5 * (1e-3 * PI / 6 * S_ (length N - 1)%nat))
    with (1e-3 * PI / 6 * (0.5 * S_ (length N - 1)%nat)) by ring.
  now rewrite (interpolate_scale _ _ _ _ _ Hw).
Qed.

(** Multiplying every concentration by the same positive factor does not
    change the median volume diameter. *)
Theorem D0_independent_of_concentration_scale (self : DropSizeDistribution)
    (c : R) (N sp d : list R) (k : nat) :
  0 < c ->
  spread self = map Fin sp -> diameter self = Some (map Fin d) ->
  length sp = length N -> length d = length N ->
  Spec.half_mass_crossing (1e-3 * PI / 6) N sp d k ->
  _calculate_D0 self (map Fin (map (Rmult c) N))
  = _calculate_D0 self (map Fin N).
Proof.
  intros Hc Hs Hd Ls Ld Hk.
  assert (Hk' : Spec.half_mass_crossing (1e-3 * PI / 6)
                  (map (Rmult c) N) sp d k).
  { destruct Hk as [Hlen [Hge Hlt]]. unfold Spec.half_mass_crossing.
    rewrite length_map. split; [exact Hlen | ].
    rewrite !cumW_scale. split; [nra | ].
    intros j Hj Hcontra. apply (Hlt j Hj). rewrite !cumW_scale in Hcontra.
    nra. }
  rewrite (@_calculate_D0_unscaled self N sp d k Hs Hd Ls Ld Hk).
  rewrite (@_calculate_D0_unscaled self (map (Rmult c) N) sp d k Hs Hd)
    by (rewrite ?length_map; assumption).
  rewrite length_map. rewrite !sum_upto_water_scale.
  replace (0.5 * (c * Spec.sum_upto (Spec.water_term N sp d) (length N - 1)))
    with (c * (0.5 * Spec.sum_upto (Spec.water_term N sp d) (length N - 1)))
    by ring.
  now rewrite (interpolate_scale _ _ _ _ _ Hc).
Qed.

Lemma D0_independent_of_concentration_scale_witness :
  _calculate_D0 TwoBins.dsd (map Fin (map (Rmult 1000) TwoBins.counts))
  = _calculate_D0 TwoBins.dsd (map Fin TwoBins.counts).
Proof.
  assert (Hw : 0 < 1e-3 * PI / 6) by (pose proof PI_RGT_0; lra).
  apply (@D0_independent_of_concentration_scale TwoBins.dsd 1000
           TwoBins.counts TwoBins.widths TwoBins.diam 1);
    try reflexivity.
  - lra.
  - apply two_bins_crossing. exact Hw.
Defined.

Lemma map_result_raises {A B} (f : A -> result B) (l : list A) (x : A)
    (e : pyexn) :
  In x l -> f x = Raise e ->
  (forall y e', f y = Raise e' -> e' = e) ->
  map_result f l = Raise e.
Proof.
  intros Hin Hx Hall. induction l as [ | y l IH]; [easy | ].
  simpl. destruct (f y) as [b | e'] eqn:Ey.
  - destruct Hin as [-> | Hin]; [congruence | ].
    simpl. rewrite (IH Hin). reflexivity.
  - simpl. f_equal. now apply Hall with y.
Qed.

(** The ways [_calculate_D0] fails on its input: an empty distribution
    array is an [IndexError] (from [cum_W[-1]]); with bins, a [diameter]
    left at [None] is a [TypeError]; and a [spread] or [diameter] shorter
    than the distribution is an [IndexError]. *)
Theorem D0_input_errors (self : DropSizeDistribution) :
  _calculate_D0 self [] = Raise IndexError /\
  (forall N, N <> [] -> spread self <> [] -> diameter self = None ->
     _calculate_D0 self N = Raise TypeError) /\
  (forall N ds, diameter self = Some ds ->
     (length (spread self) < length N)%nat \/ (length ds < length N)%nat ->
     _calculate_D0 self N = Raise IndexError).
Proof.
  split; [reflexivity | ]. split.
  - intros N HN Hsp Hd. unfold _calculate_D0, cum_W. rewrite Hd.
    destruct N as [ | n N]; [congruence | ].
    destruct (spread self) as [ | s0 sp]; [congruence | ].
    reflexivity.
  - intros N ds Hd Hshort. unfold _calculate_D0, cum_W. rewrite Hd.
    set (f := fun k : nat => _).
    set (k0 := Nat.min (length (spread self)) (length ds)).
    assert (Hk0 : (k0 < length N)%nat) by (unfold k0; lia).
    rewrite (@map_result_raises _ _ f (seq 0 (length N)) k0 IndexError).
    + reflexivity.
    + apply in_seq. lia.
    + unfold f. rewrite (py_index_nat N NaN Hk0). cbn [rbind].
      destruct (Nat.lt_ge_cases k0 (length (spread self))) as [Hs | Hs].
      * rewrite (py_index_nat _ NaN Hs). cbn [rbind not_none].
        destruct (py_index ds (Z.of_nat k0)) as [x | e] eqn:E.
        -- exfalso. unfold py_index in E.
           assert (Hge : (length ds <= k0)%nat) by (unfold k0 in *; lia).
           assert (E1 : (Z.of_nat k0 <? 0)%Z = false)
             by (apply Z.ltb_ge; lia).
           rewrite E1 in E.
           assert (E2 : (Z.of_nat k0 <? Z.of_nat (length ds))%Z = false)
             by (apply Z.ltb_ge; lia).
           rewrite E2, andb_false_r in E. discriminate.
        -- cbn [rbind]. f_equal. eapply py_index_exn; eassumption.
      * destruct (py_index (spread self) (Z.of_nat k0)) as [x | e] eqn:E.
        -- exfalso. unfold py_index in E.
           assert (E1 : (Z.of_nat k0 <? 0)%Z = false)
             by (apply Z.ltb_ge; lia).
           rewrite E1 in E.
           assert (E2 : (Z.of_nat k0 <? Z.of_nat (length (spread self)))%Z
                        = false) by (apply Z.ltb_ge; lia).
           rewrite E2, andb_false_r in E. discriminate.
        -- cbn [rbind]. f_equal. eapply py_index_exn; eassumption.
    + intros y e'. unfold f.
      destruct (py_index N (Z.of_nat y)) as [n | e1] eqn:E1; cbn [rbind].
      2:{ intro H. injection H as <-. eapply py_index_exn; eassumption. }
      destruct (py_index (spread self) (Z.of_nat y)) as [sy | e2] eqn:E2;
        cbn [rbind not_none].
      2:{ intro H. injection H as <-. eapply py_index_exn; eassumption. }
      destruct (py_index ds (Z.of_nat y)) as [dy | e3] eqn:E3; cbn [rbind].
      * discriminate.
      * intro H. injection H as <-. eapply py_index_exn; eassumption.
Qed.

(** *** [calculate_RR] *)

Lemma set_rain_rate_twice (a b : option (list npfloat))
    (s : DropSizeDistribution) :
  set_rain_rate a (set_rain_rate b s) = set_rain_rate a s.
Proof. reflexivity. Qed.

(** One pass of the loop either changes nothing or stores one element of
    [rain_rate]. *)
Lemma rain_rate_at_cases (t : nat) (s : DropSizeDistribution) :
  fst (rain_rate_at t s) = s \/
  exists a a' v,
    rain_rate s = Some a /\ np_setitem a t v = Ok a' /\
    fst (rain_rate_at t s) = set_rain_rate (Some a') s.
Proof.
  unfold rain_rate_at, setitem_attr, mbind, get, lift, modify.
  destruct (not_none (diameter s)) as [ds | e]; [ | now left].
  destruct (np_setitem (map fall_velocity ds) 0 (Fin 0.5)) as [vel | e];
    [ | now left].
  destruct (py_index (Nd s) (Z.of_nat t)) as [Nd_t | e]; [ | now left].
  destruct (_mmultiply _) as [prod | e]; [ | now left].
  destruct (rain_rate s) as [a | ] eqn:Ea; [ | now left].
  cbn [getattr].
  destruct (np_setitem a t _) as [a' | e] eqn:Es; [ | now left].
  right. exists a, a'. eexists. split; [reflexivity | ].
  split; [exact Es | reflexivity].
Qed.

Lemma rain_rate_loop_shape (s0 : DropSizeDistribution) (ts : list nat)
    (a : list npfloat) :
  exists a',
    length a' = length a /\
    fst (for_each ts rain_rate_at (set_rain_rate (Some a) s0))
    = set_rain_rate (Some a') s0.
Proof.
  revert a. induction ts as [ | t ts IH]; intro a.
  - exists a. split; reflexivity.
  - cbn [for_each]. unfold mbind.
    destruct (rain_rate_at_cases t (set_rain_rate (Some a) s0))
      as [E | [b [b' [v [Hb [Hset E]]]]]].
    + destruct (rain_rate_at t (set_rain_rate (Some a) s0)) as [s1 [[] | e]];
        cbn [fst] in E; subst s1.
      * apply IH.
      * exists a. split; reflexivity.
    + cbn [rain_rate set_rain_rate] in Hb. injection Hb as <-.
      rewrite set_rain_rate_twice in E.
      destruct (rain_rate_at t (set_rain_rate (Some a) s0)) as [s1 [[] | e]];
        cbn [fst] in E; subst s1.
      * destruct (IH b') as [a' [La E']]. exists a'. split; [ | exact E'].
        rewrite La. eapply np_setitem_length; eassumption.
      * exists b'. split; [eapply np_setitem_length; eassumption | ].
        reflexivity.
Qed.

Lemma calculate_RR_shape (self : DropSizeDistribution) :
  exists a,
    length a = length (time self) /\
    fst (calculate_RR self) = set_rain_rate (Some a) self.
Proof.
  unfold calculate_RR, mbind, get, modify, for_range. cbv beta iota.
  destruct (rain_rate_loop_shape self (seq 0 (length (time self)))
              (np_zeros (length (time self)))) as [a [La E]].
  exists a. split; [rewrite La; apply repeat_length | exact E].
Qed.

Lemma calculate_RR_ignores_rain_rate (self : DropSizeDistribution)
    (previous : option (list npfloat)) :
  calculate_RR (set_rain_rate previous self) = calculate_RR self.
Proof. reflexivity. Qed.

(** For every object, whether the call returns or raises: afterwards
    [rain_rate] is an array as long as [time], nothing else has changed,
    the outcome does not depend on what [rain_rate] held before, and a
    second call gives the same object and outcome as the first. *)
Theorem calculate_RR_rerun (self : DropSizeDistribution) :
  (exists a, length a = length (time self) /\
             fst (calculate_RR self) = set_rain_rate (Some a) self) /\
  (forall previous,
     calculate_RR (set_rain_rate previous self) = calculate_RR self) /\
  calculate_RR (fst (calculate_RR self)) = calculate_RR self.
Proof.
  split; [apply calculate_RR_shape | ].
  split; [apply calculate_RR_ignores_rain_rate | ].
  destruct (calculate_RR_shape self) as [a [_ E]]. rewrite E.
  apply calculate_RR_ignores_rain_rate.
Qed.

(** Failures in the first pass of the loop, and the empty series.
    Without time steps the call returns an empty [rain_rate].  With time
    steps, a [diameter] left at [None] raises [TypeError] and an object
    without bins raises [IndexError] (from [velocity[0] = 0.5]); in both
    cases [rain_rate] has already been replaced by zeros. *)
Theorem calculate_RR_first_pass_failures (self : DropSizeDistribution) :
  let zeros := Some (np_zeros (length (time self))) in
  (length (time self) = 0%nat ->
   calculate_RR self = (set_rain_rate (Some []) self, Ok tt)) /\
  ((1 <= length (time self))%nat -> diameter self = None ->
   calculate_RR self = (set_rain_rate zeros self, Raise TypeError)) /\
  ((1 <= length (time self))%nat -> diameter self = Some [] ->
   calculate_RR self = (set_rain_rate zeros self, Raise IndexError)).
Proof.
  intro zeros. unfold calculate_RR, mbind, get, modify, for_range.
  cbv beta iota. split; [ | split].
  - intro HT. rewrite HT. reflexivity.
  - intros HT Hd. destruct (length (time self)) as [ | T] eqn:ET; [lia | ].
    cbn [seq for_each]. unfold mbind, rain_rate_at, mbind, get, lift.
    cbn [diameter set_rain_rate]. rewrite Hd. unfold zeros.
    rewrite ?ET. reflexivity.
  - intros HT Hd. destruct (length (time self)) as [ | T] eqn:ET; [lia | ].
    cbn [seq for_each]. unfold mbind, rain_rate_at, mbind, get, lift.
    cbn [diameter set_rain_rate]. rewrite Hd. unfold zeros.
    rewrite ?ET. reflexivity.
Qed.

Lemma calculate_RR_first_pass_failures_witness :
  calculate_RR
    (__init__ [Fin 0] [[Fin 1]] [Fin 1] (Some [Fin 7]) None None None None None)
  = (set_rain_rate (Some (np_zeros 1))
       (__init__ [Fin 0] [[Fin 1]] [Fin 1] (Some [Fin 7]) None None None None
          None),
     Raise TypeError).
Proof.
  apply (proj1 (proj2 (calculate_RR_first_pass_failures
    (__init__ [Fin 0] [[Fin 1]] [Fin 1] (Some [Fin 7]) None None None None
       None)))).
  - simpl. lia.
  - reflexivity.
Defined.

Lemma calculate_RR_returns (self : DropSizeDistribution)
    (ds : list npfloat) :
  diameter self = Some ds -> (1 <= length ds)%nat ->
  length (spread self) = length ds ->
  length (Nd self) = length (time self) ->
  (forall row, In row (Nd self) -> length row = length ds) ->
  calculate_RR self
  = (set_rain_rate
       (Some (map (fun t => Spec.rain_rate ds (spread self)
                              (nth t (Nd self) []))
                  (seq 0 (length (time self))))) self,
     Ok tt).
Proof.
  intros Hd Hn Ls LN Hrows.
  unfold calculate_RR, mbind, get, modify, for_range. cbv beta iota.
  pose proof (@calculate_RR_loop self ds
                (fun t => Spec.rain_rate ds (spread self)
                            (nth t (Nd self) []))
                Hd Hn Ls Hrows (fun t => eq_refl)
                (length (time self)) 0%nat) as Hloop.
  cbn [seq map app Nat.add] in Hloop.
  exact (Hloop ltac:(lia)).
Qed.

Lemma fold_fadd_zeros (l : list npfloat) (a : R) :
  (forall x, In x l -> exists r, x = Fin r /\ r = 0) ->
  fold_left fadd l (Fin a) = Fin a.
Proof.
  revert a. induction l as [ | x l IH]; intros a H; [reflexivity | ].
  destruct (H x (or_introl eq_refl)) as [r [-> ->]].
  cbn [fold_left fadd]. replace (a + 0) with a by ring.
  apply IH. intros y Hy. apply H. now right.
Qed.

(** The rain rate of a time step whose drops are all in the smallest bin:
    the velocity that enters is [0.5], not the value of the exponential
    formula at that diameter. *)
Theorem rain_rate_of_smallest_bin (self : DropSizeDistribution)
    (d sp : list R) (t : nat) (n0 : R) :
  diameter self = Some (map Fin d) -> spread self = map Fin sp ->
  (1 <= length d)%nat -> length sp = length d ->
  length (Nd self) = length (time self) ->
  (forall row, In row (Nd self) -> length row = length d) ->
  (t < length (time self))%nat ->
  nth t (Nd self) [] = Fin n0 :: repeat (Fin 0) (length d - 1) ->
  exists rates,
    calculate_RR self = (set_rain_rate (Some rates) self, Ok tt) /\
    nth t rates NaN
    = Fin (0.6 * PI * 1e-3 * (0.5 * n0 * nth 0 sp 0 * nth 0 d 0 ^ 3)).
Proof.
  intros Hd Hs Hn Ls LN Hrows Ht Hrow.
  eexists. split.
  - apply (@calculate_RR_returns self (map Fin d) Hd);
      rewrite ?length_map, ?Hs, ?length_map; assumption.
  - rewrite (@nth_map_seq _ _ (length (time self)) t NaN Ht).
    rewrite Hrow, Hs. unfold Spec.rain_rate, Spec.fsum_below.
    rewrite length_map.
    destruct d as [ | d0 d']; [simpl in Hn; lia | ].
    destruct sp as [ | s0 sp']; [simpl in Ls; lia | ].
    cbn [length seq map fold_left nth Spec.v].
    rewrite np_power_3. cbn [fmul fadd].
    replace (length d' - 0)%nat with (length d') by lia.
    rewrite fold_fadd_zeros.
    + cbn [fmul]. f_equal. ring.
    + intros x Hx. apply in_map_iff in Hx. destruct Hx as [i [<- Hi]].
      apply in_seq in Hi. destruct i as [ | i']; [lia | ].
      cbn [nth Spec.v].
      simpl in Ls. injection Ls as Ls.
      rewrite (@nth_map_lt _ _ Fin d' i' 0 NaN) by lia.
      rewrite (@nth_map_lt _ _ Fin sp' i' 0 NaN) by lia.
      rewrite (nth_indep _ NaN (Fin 0)) by (rewrite repeat_length; lia).
      rewrite nth_repeat, np_power_3.
      cbn [fmul fsub fneg fadd np_exp]. eexists. split; [reflexivity | ring].
Qed.

(** On two bins with two drops in the smallest one the rate is
    [0.6*pi*1e-3 * (0.5 * 2 * 1 * 2^3)]. *)
Lemma rain_rate_of_smallest_bin_witness :
  exists rates,
    calculate_RR SmallestBin.dsd
    = (set_rain_rate (Some rates) SmallestBin.dsd, Ok tt) /\
    nth 0 rates NaN
    = Fin (0.6 * PI * 1e-3 *
           (0.5 * 2 * nth 0 SmallestBin.widths 0 *
            nth 0 SmallestBin.diam 0 ^ 3)).
Proof.
  apply (@rain_rate_of_smallest_bin SmallestBin.dsd SmallestBin.diam
           SmallestBin.widths 0%nat 2);
    try reflexivity.
  - simpl. lia.
  - intros row [<- | []]. reflexivity.
  - simpl. lia.
Defined.

(** *** [_mmultiply] *)

Lemma zip_with_ones (a : list npfloat) :
  zip_with fmul (np_ones (length a)) a = a.
Proof.
  induction a as [ | x a IH]; [reflexivity | ].
  unfold zip_with, np_ones in *. cbn [length repeat combine map fst snd].
  rewrite fmul_1_l. f_equal. exact IH.
Qed.

(** [_mmultiply] without arguments raises [IndexError]; one argument
    comes back unchanged; two arguments of equal length give their
    elementwise product; and a further argument multiplies the product of
    those before it. *)
Theorem mmultiply_is_the_running_product :
  _mmultiply [] = Raise IndexError /\
  (forall a, _mmultiply [a] = Ok a) /\
  (forall a b, length a = length b ->
     _mmultiply [a; b] = Ok (zip_with fmul a b)) /\
  (forall a args b,
     _mmultiply (a :: args ++ [b])
     = (p <- _mmultiply (a :: args) ;; np_multiply p b)).
Proof.
  assert (One : forall a, _mmultiply [a] = Ok a).
  { intro a. unfold _mmultiply. cbn [fold_left rbind]. unfold np_multiply.
    rewrite np_binop_same_length
      by (unfold np_ones; now rewrite repeat_length).
    now rewrite zip_with_ones. }
  split; [reflexivity | ]. split; [exact One | ]. split.
  - intros a b Hab. unfold _mmultiply. cbn [fold_left rbind].
    unfold np_multiply.
    rewrite np_binop_same_length
      by (unfold np_ones; now rewrite repeat_length).
    rewrite zip_with_ones. cbn [rbind].
    now rewrite np_binop_same_length.
  - intros a args b. unfold _mmultiply.
    change (a :: args ++ [b]) with ((a :: args) ++ [b]).
    rewrite fold_left_app. reflexivity.
Qed.

(** *** [_idb] *)

Lemma ln_10_pos : 0 < ln 10.
Proof. rewrite <- ln_1. apply ln_increasing; lra. Qed.

(** [_idb] inverts the conversion to dB of [calc_radar_parameters], and
    the other way round, on finite values; its values are positive finite
    numbers, and it keeps the length of the array. *)
Theorem idb_inverts_to_dB :
  (forall x, 0 < x -> db_to_linear (to_dB (Fin x)) = Fin x) /\
  (forall y, to_dB (db_to_linear (Fin y)) = Fin y) /\
  (forall y, exists z, db_to_linear (Fin y) = Fin z /\ 0 < z) /\
  (forall db, length (_idb db) = length db).
Proof.
  pose proof ln_10_pos as H10.
  assert (Pos : forall y, 0 < Rpower 10 (0.1 * y))
    by (intro y; unfold Rpower; apply exp_pos).
  split; [ | split; [ | split]].
  - intros x Hx. unfold to_dB. cbn [np_log10].
    rewrite Rltb_true by exact Hx. cbn [fmul].
    rewrite db_to_linear_finite. f_equal. unfold Rpower.
    replace (0.1 * (10 * (ln x / ln 10)) * ln 10) with (ln x).
    + now apply exp_ln.
    + replace 0.1 with (1 / 10) by lra. field. lra.
  - intro y. rewrite db_to_linear_finite. unfold to_dB. cbn [np_log10].
    rewrite Rltb_true by apply Pos. cbn [fmul]. f_equal.
    unfold Rpower. rewrite ln_exp.
    replace 0.1 with (1 / 10) by lra. field. lra.
  - intro y. rewrite db_to_linear_finite. eexists. split; [reflexivity | ].
    apply Pos.
  - intro db. unfold _idb. apply length_map.
Qed.

(** *** The fits before the computations *)

Lemma filter_none {A} (f : A -> bool) (l : list A) :
  (forall x, In x l -> f x = false) -> filter f l = [].
Proof.
  induction l as [ | x l IH]; intro H; [reflexivity | ].
  simpl. rewrite (H x) by (now left). apply IH. intros y Hy. apply H.
  now right.
Qed.

Lemma zeros_not_positive (T t : nat) :
  fgtb (nth t (np_zeros T) NaN) (Fin 0) = false.
Proof.
  destruct (Nat.lt_ge_cases t T) as [Ht | Ht].
  - unfold np_zeros.
    rewrite (nth_indep _ NaN (Fin 0)) by (now rewrite repeat_length).
    rewrite nth_repeat. cbn. apply Rltb_false. lra.
  - rewrite nth_overflow by (unfold np_zeros; now rewrite repeat_length).
    reflexivity.
Qed.

Lemma db_to_linear_zero : db_to_linear (Fin 0) = Fin 1.
Proof.
  rewrite db_to_linear_finite. f_equal. unfold Rpower.
  rewrite Rmult_0_r, Rmult_0_l. apply exp_0.
Qed.

(** The fits on an object that was constructed with a rain rate as long
    as [time] but on which [calc_radar_parameters] has not run: the radar
    arrays are still zero, so the Kdp fit and the three two-predictor
    fits pass no row at all to the fitting routine, and the Zh fit passes
    a predictor of ones for the rows with a positive rain rate. *)
Theorem fits_before_radar_parameters (fit : Type)
    (expfit : list npfloat -> list npfloat -> result fit)
    (expfit2 : list (list npfloat) -> list npfloat -> result fit)
    (time0 : list npfloat) (Nd0 : list (list npfloat))
    (spread0 rr : list npfloat)
    (velocity0 Z0 num_particles0 bin_edges0 diameter0
       : option (list npfloat)) :
  length rr = length time0 ->
  let self := __init__ time0 Nd0 spread0 (Some rr) velocity0 Z0
                num_particles0 bin_edges0 diameter0 in
  let rows := Spec.joint_rows [rr] (length time0) in
  calc_R_kdp_relationship expfit self = expfit [] [] /\
  calc_R_Zh_relationship expfit self
  = expfit (map (fun _ => Fin 1) rows) (Spec.rows_of rr rows) /\
  calc_R_Zh_Zdr_relationship expfit2 self = expfit2 [[]; []] [] /\
  calc_R_Zh_Kdp_relationship expfit2 self = expfit2 [[]; []] [] /\
  calc_R_Zdr_Kdp_relationship expfit2 self = expfit2 [[]; []] [].
Proof.
  intros Lr self rows. set (T := length time0) in *.
  assert (LZ : length (np_zeros T) = T) by apply repeat_length.
  assert (Hjoint : exists filt,
             joint_filter self rr = Ok filt /\ length filt = T /\
             filter (fun t => nth t filt false) (seq 0 T) = []).
  { destruct (@joint_filter_rows self rr T Lr LZ LZ) as [filt [Ef [Lf Hf]]].
    exists filt. split; [exact Ef | ]. split; [exact Lf | ].
    rewrite Hf. unfold Spec.joint_rows. apply filter_none. intros t _.
    cbn [forallb]. change (Kdp self) with (np_zeros T).
    rewrite zeros_not_positive. now rewrite !andb_false_r. }
  destruct Hjoint as [filt [Ef [Lf Hf]]].
  repeat split.
  - unfold calc_R_kdp_relationship. cbn [rain_rate self __init__ not_none rbind].
    change (Kdp self) with (np_zeros T).
    rewrite np_logical_and_same_length by (rewrite !gt0_length; congruence).
    cbn [rbind].
    rewrite !np_mask_rows
      by (rewrite zip_with_length_min, !gt0_length; lia).
    cbn [rbind]. rewrite LZ, Lr.
    rewrite filter_none; [reflexivity | ].
    intros t _. rewrite zip_with_andb_nth by (rewrite !gt0_length; congruence).
    rewrite gt0_nth, zeros_not_positive. reflexivity.
  - unfold calc_R_Zh_relationship. cbn [rain_rate self __init__ not_none rbind].
    change (Zh self) with (np_zeros T).
    rewrite !np_mask_rows by (rewrite gt0_length; congruence).
    cbn [rbind]. rewrite LZ, Lr.
    assert (Hz : filter (fun t => nth t (gt0 rr) false) (seq 0 T) = rows).
    { unfold rows, Spec.joint_rows. apply filter_ext. intro t.
      rewrite gt0_nth. cbn [forallb]. now rewrite andb_true_r. }
    rewrite Hz. f_equal. unfold Spec.rows_of. rewrite map_map.
    apply map_ext_in. intros t Ht. unfold rows, Spec.joint_rows in Ht.
    apply filter_In in Ht. destruct Ht as [Ht _]. apply in_seq in Ht.
    unfold np_zeros.
    rewrite (nth_indep _ NaN (Fin 0)) by (rewrite repeat_length; lia).
    rewrite nth_repeat. apply db_to_linear_zero.
  - unfold calc_R_Zh_Zdr_relationship.
    cbn [rain_rate self __init__ not_none rbind]. fold self. rewrite Ef.
    cbn [rbind]. change (Zh self) with (np_zeros T).
    change (Zdr self) with (np_zeros T).
    rewrite !np_mask_rows by congruence. cbn [rbind].
    rewrite LZ, Lr, Hf. reflexivity.
  - unfold calc_R_Zh_Kdp_relationship.
    cbn [rain_rate self __init__ not_none rbind]. fold self. rewrite Ef.
    cbn [rbind]. change (Zh self) with (np_zeros T).
    change (Kdp self) with (np_zeros T).
    rewrite !np_mask_rows by congruence. cbn [rbind].
    rewrite LZ, Lr, Hf. reflexivity.
  - unfold calc_R_Zdr_Kdp_relationship.
    cbn [rain_rate self __init__ not_none rbind]. fold self. rewrite Ef.
    cbn [rbind]. change (Zdr self) with (np_zeros T).
    change (Kdp self) with (np_zeros T).
    rewrite !np_mask_rows by congruence. cbn [rbind].
    rewrite LZ, Lr, Hf. reflexivity.
Qed.

Lemma fits_before_radar_parameters_witness :
  let rr := [Fin 3; Fin 0; Fin 5] in
  let self := __init__ [Fin 0; Fin 1; Fin 2] [] [] (Some rr) None None None
                None None in
  let rows := Spec.joint_rows [rr] 3 in
  calc_R_kdp_relationship Fitted.count_rows self = Fitted.count_rows [] [] /\
  calc_R_Zh_relationship Fitted.count_rows self
  = Fitted.count_rows (map (fun _ => Fin 1) rows) (Spec.rows_of rr rows) /\
  calc_R_Zh_Zdr_relationship Fitted.count_rows2 self
  = Fitted.count_rows2 [[]; []] [] /\
  calc_R_Zh_Kdp_relationship Fitted.count_rows2 self
  = Fitted.count_rows2 [[]; []] [] /\
  calc_R_Zdr_Kdp_relationship Fitted.count_rows2 self
  = Fitted.count_rows2 [[]; []] [].
Proof.
  apply (@fits_before_radar_parameters nat Fitted.count_rows
           Fitted.count_rows2 [Fin 0; Fin 1; Fin 2] [] []
           [Fin 3; Fin 0; Fin 5] None None None None None).
  reflexivity.
Defined.

Lemma D0_input_errors_witness :
  _calculate_D0 Scenario.dsd [Fin 1; Fin 1; Fin 1; Fin 1; Fin 1]
  = Raise IndexError.
Proof.
  apply (proj2 (proj2 (D0_input_errors Scenario.dsd))
           [Fin 1; Fin 1; Fin 1; Fin 1; Fin 1] Scenario.diam).
  - reflexivity.
  - left. simpl. lia.
Defined.

Lemma mmultiply_is_the_running_product_witness :
  _mmultiply [[Fin 2; Fin 3]; [Fin 5; Fin 7]]
  = Ok (zip_with fmul [Fin 2; Fin 3] [Fin 5; Fin 7]).
Proof.
  apply (proj1 (proj2 (proj2 mmultiply_is_the_running_product))).
  reflexivity.
Defined.

Lemma idb_inverts_to_dB_witness :
  db_to_linear (to_dB (Fin 100)) = Fin 100.
Proof. apply (proj1 idb_inverts_to_dB). lra. Defined.

(** *** The scenario of the specification and a bin with drops *)

Lemma scenario_moments_raise (counts : list npfloat) (m : npfloat) :
  length counts = 4%nat ->
  _calc_mth_moment
    (__init__ [Fin 0] [counts] Scenario.widths None None None None
       (Some Scenario.edges) (Some Scenario.diam)) m
  = Raise ValueError.
Proof.
  intro L.
  apply (@_calc_mth_moment_raises _ m Scenario.edges Scenario.diam 4);
    try reflexivity; try (simpl; lia).
  intros row [<- | []]. exact L.
Qed.

(** C6 (the code departs from the claim).  On the end-to-end scenario of
    the specification [calc_dsd_parameterization] raises [ValueError] in
    the moments of line 203 and leaves [Dm] at the zero it was created
    with, where the quotient of the fourth by the third moment of the
    specification is [245.9375 / 111.875]; on the same bins without
    drops, where that quotient is [nan], it raises as well and leaves
    [Dm] at zero. *)
Theorem Dm_not_computed_on_scenario (method : string) :
  let run := calc_dsd_parameterization method Scenario.dsd in
  let run0 := calc_dsd_parameterization method Empty.dsd in
  (snd run = Raise ValueError /\ Dm (fst run) = Some [Fin 0]) /\
  (fdiv (Spec.moment (Fin 4) Scenario.diam Scenario.widths Scenario.counts)
        (Spec.moment (Fin 3) Scenario.diam Scenario.widths Scenario.counts)
   = Fin (245.9375 / 111.875) /\ 245.9375 / 111.875 <> 0) /\
  (snd run0 = Raise ValueError /\ Dm (fst run0) = Some [Fin 0]) /\
  fdiv (Spec.moment (Fin 4) Scenario.diam Scenario.widths Empty.counts)
       (Spec.moment (Fin 3) Scenario.diam Scenario.widths Empty.counts)
  = NaN.
Proof.
  intros run run0.
  assert (M : forall m c,
             Spec.moment m Scenario.diam Scenario.widths
               [Fin (nth 0 c 0); Fin (nth 1 c 0); Fin (nth 2 c 0);
                Fin (nth 3 c 0)]
             = fold_left fadd
                 (map (fun i => fmul (fmul (np_power (nth i Scenario.diam NaN) m)
                                           (Fin (nth i c 0)))
                                     (Fin 1)) (seq 0 4)) (Fin 0)).
  { intros m c. reflexivity. }
  assert (E4 : Spec.moment (Fin 4) Scenario.diam Scenario.widths
                 Scenario.counts = Fin 245.9375).
  { unfold Spec.moment, Spec.fsum_below, Scenario.diam, Scenario.widths,
      Scenario.counts.
    cbn [length seq map fold_left nth]. rewrite !np_power_4.
    cbn [fmul fadd]. f_equal. lra. }
  assert (E3 : Spec.moment (Fin 3) Scenario.diam Scenario.widths
                 Scenario.counts = Fin 111.875).
  { unfold Spec.moment, Spec.fsum_below, Scenario.diam, Scenario.widths,
      Scenario.counts.
    cbn [length seq map fold_left nth]. rewrite !np_power_3.
    cbn [fmul fadd]. f_equal. lra. }
  assert (Z4 : Spec.moment (Fin 4) Scenario.diam Scenario.widths
                 Empty.counts = Fin 0).
  { unfold Spec.moment, Spec.fsum_below, Scenario.diam, Scenario.widths,
      Empty.counts.
    cbn [length seq map fold_left nth]. rewrite !np_power_4.
    cbn [fmul fadd]. f_equal. lra. }
  assert (Z3 : Spec.moment (Fin 3) Scenario.diam Scenario.widths
                 Empty.counts = Fin 0).
  { unfold Spec.moment, Spec.fsum_below, Scenario.diam, Scenario.widths,
      Empty.counts.
    cbn [length seq map fold_left nth]. rewrite !np_power_3.
    cbn [fmul fadd]. f_equal. lra. }
  clear M.
  split; [ | split; [ | split]].
  - unfold run.
    rewrite (@calc_dsd_when_a_moment_raises Scenario.dsd method ValueError)
      by (left; now apply scenario_moments_raise).
    split; reflexivity.
  - rewrite E4, E3. cbn [fdiv]. rewrite Reqb_false by lra.
    split; [reflexivity | lra].
  - unfold run0.
    rewrite (@calc_dsd_when_a_moment_raises Empty.dsd method ValueError)
      by (left; now apply scenario_moments_raise).
    split; reflexivity.
  - rewrite Z4, Z3. cbn [fdiv]. now rewrite !Reqb_true.
Qed.

(** The run of [calc_dsd_parameterization] on one bin, one row of [Nd]
    and one width. *)
Lemma run_on_one_bin (self : DropSizeDistribution) (method : string)
    (e0 e1 d0 n0 s0 : npfloat) :
  bin_edges self = Some [e0; e1] -> diameter self = Some [d0] ->
  Nd self = [[n0]] -> spread self = [s0] ->
  (1 <= length (time self))%nat ->
  exists dm,
    calc_dsd_parameterization method self
    = (set_Nt (Some (fmul s0 n0 :: np_zeros (length (time self) - 1)))
         (set_Dm (Some dm) (alloc_dsd_parameters self)),
       Raise NameError).
Proof.
  intros He Hd HN Hs HT.
  pose proof (moment_on_one_bin self (Fin 4) He Hd HN) as E4.
  pose proof (moment_on_one_bin self (Fin 3) He Hd HN) as E3.
  destruct (length (time self)) as [ | T] eqn:ET; [lia | ].
  eexists.
  unfold calc_dsd_parameterization, mbind, modify, get, lift.
  cbv beta iota. rewrite !_calc_mth_moment_alloc, E4, E3.
  unfold np_divide.
  rewrite np_binop_same_length by (now rewrite !repeat_length).
  change (time (alloc_dsd_parameters self)) with (time self).
  rewrite ET.
  unfold for_range. cbn [seq for_each]. unfold mbind.
  rewrite (@first_pass_one_bin _ n0 s0 (np_zeros (S T))).
  - cbn [np_zeros repeat tl]. replace (S T - 1)%nat with T by lia.
    reflexivity.
  - exact HN.
  - exact Hs.
  - cbn [Nt set_Dm alloc_dsd_parameters set_Dmax set_Nw set_D0 set_W set_Nt].
    rewrite ET. reflexivity.
  - discriminate.
Qed.

(** C7 (the code departs from the claim).  On one time step with one bin
    of two drops, where the claimed water content
    [C_w * Nd * spread * diameter^3] with the code's
    [vol_constant = C_w = 1e-2 * pi / 6 * rho_w] is not zero,
    [calc_dsd_parameterization] raises [NameError] at the assignment of
    [W[t]] (the name [array] of line 207 is unbound) and leaves [W] at the
    zero it was created with; on the scenario of the specification it
    raises [ValueError] before, in the moments of line 203, and [W] is
    left at zero as well.  The cumulative curve of [_calculate_D0] on the
    bin is scaled by [W_const = 1e-3 * pi / 6], so it is not the curve
    with the constant [C_w]. *)
Theorem W_not_stored_on_one_drop_bin (method : string) :
  let run := calc_dsd_parameterization method OneDrop.dsd in
  let run' := calc_dsd_parameterization method Scenario.dsd in
  let C_w := 1e-2 * PI / 6 * 1 in
  let claimed_W :=
    Spec.cumW C_w OneDrop.counts OneDrop.widths OneDrop.diam 0 in
  (vol_constant = Fin C_w /\ W_const = Fin (1e-3 * PI / 6)) /\
  (snd run = Raise NameError /\ W (fst run) = Some [Fin 0] /\
   claimed_W <> 0) /\
  (snd run' = Raise ValueError /\ W (fst run') = Some [Fin 0]) /\
  cum_W OneDrop.dsd (map Fin OneDrop.counts)
  = Ok [Fin (Spec.cumW (1e-3 * PI / 6) OneDrop.counts OneDrop.widths
               OneDrop.diam 0)] /\
  Spec.cumW (1e-3 * PI / 6) OneDrop.counts OneDrop.widths OneDrop.diam 0
  <> claimed_W.
Proof.
  intros run run' C_w claimed_W. pose proof PI_RGT_0 as Hpi.
  split; [split; [apply vol_constant_value | apply W_const_value] | ].
  destruct (@run_on_one_bin OneDrop.dsd method (Fin 1.5) (Fin 2.5) (Fin 2)
              (Fin 2) (Fin 1)) as [dm E]; try reflexivity.
  assert (V : forall c,
             Spec.cumW c OneDrop.counts OneDrop.widths OneDrop.diam 0
             = c * 16).
  { intro c.
    unfold Spec.cumW, Spec.water_term, OneDrop.counts, OneDrop.widths,
      OneDrop.diam.
    cbn [Spec.sum_upto nth]. simpl. lra. }
  unfold claimed_W, C_w. rewrite !V.
  split; [ | split; [ | split]].
  - unfold run. rewrite E. cbn [fst snd].
    split; [reflexivity | ]. split; [reflexivity | lra].
  - unfold run'.
    rewrite (@calc_dsd_when_a_moment_raises Scenario.dsd method ValueError)
      by (left; now apply scenario_moments_raise).
    split; reflexivity.
  - rewrite (@cum_W_finite OneDrop.dsd OneDrop.counts OneDrop.widths
               OneDrop.diam); try reflexivity.
    cbn [OneDrop.counts length seq map]. now rewrite V.
  - lra.
Qed.
